(** * Bot detection of the useragent package (bot.go)

    A shallow embedding of [getFromSite], [iMessagePreview], [setSimple],
    [fixOther], [isKnownBadBot] and [checkBot], together with the parts of
    Go's [strings] and [regexp] packages they call.

    Go strings are byte sequences; they are modelled by [string], whose
    characters ([ascii]) are exactly the 256 byte values.  Indexing and
    slicing out of range panic in Go: such operations return a [result]. *)

From Stdlib Require Import String Ascii List Bool Arith Lia.
Import ListNotations.

Open Scope string_scope.
Open Scope list_scope.
Open Scope nat_scope.

Infix "+++" := String.append (at level 60, right associativity).

(** ** Run-time panics *)

Inductive result (A : Type) : Type :=
| Ok (a : A)
| Panic.

Arguments Ok {A} a.
Arguments Panic {A}.

Definition bind {A B : Type} (m : result A) (k : A -> result B) : result B :=
  match m with
  | Ok a => k a
  | Panic => Panic
  end.

Notation "x <- m ;; k" := (bind m (fun x => k))
  (at level 61, m at next level, right associativity).

(** [a[i]] on a slice. *)
Definition at_ {A : Type} (a : list A) (i : nat) : result A :=
  match nth_error a i with
  | Some x => Ok x
  | None => Panic
  end.

(** ** Byte strings *)

(** [len(s)] of a string: its number of bytes. *)
Abbreviation len := String.length.

Fixpoint take (n : nat) (s : string) : string :=
  match n, s with
  | S n', String a t => String a (take n' t)
  | _, _ => ""
  end.

Fixpoint drop (n : nat) (s : string) : string :=
  match n, s with
  | S n', String _ t => drop n' t
  | _, _ => s
  end.

(** [s[i:]]. *)
Definition sliceFrom (s : string) (i : nat) : result string :=
  if i <=? len s then Ok (drop i s) else Panic.

(** [s[i:j]]. *)
Definition slice (s : string) (i j : nat) : result string :=
  if (i <=? j) && (j <=? len s) then Ok (take (j - i) (drop i s)) else Panic.

(** What Go's Unicode tables decide.  [strings.ToLower] and
    [strings.TrimSpace] handle ASCII text themselves and hand everything else
    to [strings.Map] and [strings.TrimFunc] with the tables of package
    [unicode]; those three calls are the fields of this class. *)
Class GoUnicode : Type := {
  (** [strings.Map(unicode.ToLower, s)] *)
  mapToLower : string -> string;
  (** [strings.TrimFunc(s, unicode.IsSpace)] *)
  trimFuncSpace : string -> string;
  (** [strings.TrimRightFunc(s, unicode.IsSpace)] *)
  trimRightFuncSpace : string -> string
}.

(** A runtime that leaves non-ASCII text alone, to evaluate the code on ASCII
    inputs, where none of the three fields is called. *)
Definition AsciiRuntime : GoUnicode :=
  {| mapToLower := fun s => s;
     trimFuncSpace := fun s => s;
     trimRightFuncSpace := fun s => s |}.

Module strings.

(** [c < utf8.RuneSelf] *)
Definition isASCIIByte (c : ascii) : bool := nat_of_ascii c <? 128.

Fixpoint isASCII (s : string) : bool :=
  match s with
  | "" => true
  | String c t => isASCIIByte c && isASCII t
  end.

Definition isUpper (c : ascii) : bool :=
  (nat_of_ascii "A" <=? nat_of_ascii c) && (nat_of_ascii c <=? nat_of_ascii "Z").

(** [c += 'a' - 'A'] for the bytes ['A'..'Z']. *)
Definition lowerByte (c : ascii) : ascii :=
  if isUpper c then ascii_of_nat (nat_of_ascii c + 32) else c.

Fixpoint lowerASCII (s : string) : string :=
  match s with
  | "" => ""
  | String c t => String (lowerByte c) (lowerASCII t)
  end.

Definition ToLower {U : GoUnicode} (s : string) : string :=
  if isASCII s then lowerASCII s else mapToLower s.

Fixpoint HasPrefix (s prefix : string) {struct prefix} : bool :=
  match prefix, s with
  | "", _ => true
  | String a p', String b s' => Ascii.eqb a b && HasPrefix s' p'
  | String _ _, "" => false
  end.

(** Byte index of the first instance of [substr] in [s]; [None] is Go's -1. *)
Fixpoint Index (s substr : string) : option nat :=
  if HasPrefix s substr then Some 0
  else match s with
       | "" => None
       | String _ t => option_map S (Index t substr)
       end.

Definition Contains (s substr : string) : bool :=
  match Index s substr with
  | Some _ => true
  | None => false
  end.

(** [strings.SplitN(s, sep, 2)] for a non-empty [sep]: at most two
    substrings, the second one the unsplit remainder. *)
Definition SplitN2 (s sep : string) : list string :=
  match Index s sep with
  | Some m => [take m s; drop (m + len sep) s]
  | None => [s]
  end.

(** The [asciiSpace] table: tab, newline, vertical tab, form feed,
    carriage return, space. *)
Definition asciiSpace (c : ascii) : bool :=
  let n := nat_of_ascii c in
  ((9 <=? n) && (n <=? 13)) || (n =? 32).

Fixpoint stripSpaceRight (s : string) : string :=
  match s with
  | "" => ""
  | String c t =>
      match stripSpaceRight t with
      | "" => if asciiSpace c then "" else String c ""
      | t' => String c t'
      end
  end.

Fixpoint lastByte (s : string) : option ascii :=
  match s with
  | "" => None
  | String c "" => Some c
  | String _ t => lastByte t
  end.

(** The second loop of [TrimSpace], on [s[start:]]: [stop] moves left over
    ASCII white space; a non-ASCII byte there sends [s[start:stop]] to
    [TrimRightFunc]. *)
Definition trimSpaceRight {U : GoUnicode} (s : string) : string :=
  let u := stripSpaceRight s in
  match lastByte u with
  | Some c => if isASCIIByte c then u else trimRightFuncSpace u
  | None => u
  end.

(** [TrimSpace]: [start] moves right over ASCII white space; a non-ASCII
    byte there sends [s[start:]] to [TrimFunc]. *)
Fixpoint TrimSpace {U : GoUnicode} (s : string) : string :=
  match s with
  | "" => ""
  | String c t =>
      if negb (isASCIIByte c) then trimFuncSpace s
      else if asciiSpace c then TrimSpace t
      else trimSpaceRight s
  end.

End strings.

(** ** Package [regexp], for patterns such as [botFromSiteRegexp]

    Go matches leftmost-first: the match begins as early as possible and is
    the one a backtracking search finds first.  The matcher below is that
    backtracking search, over bytes.  Go reads runes; for a pattern whose
    literals are ASCII the two agree, since an ASCII byte is always a rune of
    its own, also inside ill-formed UTF-8. *)

Module regexp.

Inductive regex : Type :=
| RLit (l : string)               (* a literal string *)
| RSet (p : ascii -> bool)        (* one character of a class *)
| ROpt (r : regex)                (* r?, preferring r *)
| RPlus (p : ascii -> bool)       (* [p]+, preferring more *)
| RCat (r1 r2 : regex).

Fixpoint allChars (p : ascii -> bool) (s : string) : bool :=
  match s with
  | "" => true
  | String a t => p a && allChars p t
  end.

(** The strings a pattern denotes. *)
Fixpoint lang (r : regex) (s : string) : Prop :=
  match r with
  | RLit l => s = l
  | RSet p => exists a, p a = true /\ s = String a ""
  | ROpt r' => s = "" \/ lang r' s
  | RPlus p => s <> "" /\ allChars p s = true
  | RCat r1 r2 => exists s1 s2, s = s1 +++ s2 /\ lang r1 s1 /\ lang r2 s2
  end.

Fixpoint litK (l s : string) (k : string -> option string) {struct l}
  : option string :=
  match l with
  | "" => k s
  | String a l' =>
      match s with
      | String b t => if Ascii.eqb a b then litK l' t k else None
      | "" => None
      end
  end.

Fixpoint plusK (p : ascii -> bool) (s : string) (k : string -> option string)
  : option string :=
  match s with
  | String a t =>
      if p a then
        match plusK p t k with
        | Some rest => Some rest
        | None => k t
        end
      else None
  | "" => None
  end.

(** [matchK r s k]: match [r] at the start of [s], then the continuation [k]
    on what is left; alternatives are tried in the pattern's order of
    preference.  The answer is the text left after the whole match. *)
Fixpoint matchK (r : regex) (s : string) (k : string -> option string)
  : option string :=
  match r with
  | RLit l => litK l s k
  | RSet p =>
      match s with
      | String a t => if p a then k t else None
      | "" => None
      end
  | ROpt r' =>
      match matchK r' s k with
      | Some rest => Some rest
      | None => k s
      end
  | RPlus p => plusK p s k
  | RCat r1 r2 => matchK r1 s (fun s' => matchK r2 s' k)
  end.

(** The match starting at the first byte of [s], if any. *)
Definition matchHere (r : regex) (s : string) : option string :=
  match matchK r s Some with
  | Some rest => Some (take (len s - len rest) s)
  | None => None
  end.

(** Leftmost match: its start and its text. *)
Fixpoint find (r : regex) (s : string) : option (nat * string) :=
  match matchHere r s with
  | Some m => Some (0, m)
  | None =>
      match s with
      | "" => None
      | String _ t =>
          match find r t with
          | Some (i, m) => Some (S i, m)
          | None => None
          end
      end
  end.

(** [FindStringSubmatch] for a pattern without capture groups: [nil] when
    there is no match, otherwise the match itself followed by one entry per
    group, of which there is none. *)
Definition FindStringSubmatch (r : regex) (s : string) : list string :=
  match find r s with
  | Some (_, m) => [m]
  | None => []
  end.

(** [len(FindAllString(s, -1))] for a pattern that matches no empty string:
    successive matches, each search starting where the last match ended. *)
Fixpoint countFrom (fuel : nat) (r : regex) (s : string) : nat :=
  match fuel with
  | 0 => 0
  | S fuel' =>
      match find r s with
      | Some (i, m) => S (countFrom fuel' r (drop (i + len m) s))
      | None => 0
      end
  end.

Definition countMatches (r : regex) (s : string) : nat :=
  countFrom (S (len s)) r s.

(** [.]: any character but a newline. *)
Definition anyChar (c : ascii) : bool := negb (Ascii.eqb c "010").

(** [\w]: [0-9A-Za-z_]. *)
Definition wordChar (c : ascii) : bool :=
  let n := nat_of_ascii c in
  ((48 <=? n) && (n <=? 57)) || ((65 <=? n) && (n <=? 90))
  || ((97 <=? n) && (n <=? 122)) || (n =? 95).

End regexp.

(** ** bot.go *)

(** [http[s]?://.+\.\w+] *)
Definition botFromSiteRegexp : regexp.regex :=
  regexp.RCat (regexp.RLit "http")
    (regexp.RCat (regexp.ROpt (regexp.RSet (Ascii.eqb "s")))
       (regexp.RCat (regexp.RLit "://")
          (regexp.RCat (regexp.RPlus regexp.anyChar)
             (regexp.RCat (regexp.RLit ".") (regexp.RPlus regexp.wordChar))))).

(** Modelled from the spec: the struct declarations are in files of the
    package other than bot.go.  [section] is the spec's Section; the fields
    of the three records carry the names bot.go uses for them ([ua] is
    rawHeader, [mozilla] is mozillaMarker, [bot] is isBot). *)
Record section : Type := mkSection {
  name : string;
  version : string;
  comment : list string
}.

(** Modelled from the spec: BrowserInfo, whose declaration is outside bot.go,
    with the field names bot.go assigns to. *)
Record Browser : Type := mkBrowser {
  Name : string;
  Version : string;
  Engine : string;
  EngineVersion : string
}.

(** Modelled from the spec: IdentityRecord, the receiver [p] of the methods
    of bot.go, whose declaration is outside bot.go. *)
Record UserAgent : Type := mkUserAgent {
  ua : string;
  mozilla : string;
  platform : string;
  os : string;
  localization : string;
  bot : bool;
  undecided : bool;
  browser : Browser
}.

Section Bot.

Context {U : GoUnicode}.

(** The value of [badBotsList] once [badBotsOnce] has run: the identifiers of
    bad_bots.yaml, or no identifier at all when loading failed. *)
Variable badBotsList : list string.

Definition LoadBadBotsYAML : list string := badBotsList.

Definition getFromSite (comment : list string) : result string :=
  if length comment =? 0 then Ok ""
  else
    let idx := if length comment <? 3 then 0
               else if length comment =? 4 then 3
               else 2 in
    field <- at_ comment idx ;;
    let results := regexp.FindStringSubmatch botFromSiteRegexp field in
    if length results =? 1 then
      if idx =? 0 then at_ results 0
      else
        prev <- at_ comment (idx - 1) ;;
        Ok (strings.TrimSpace prev)
    else Ok "".

Definition googleOrBingBot (p : UserAgent) : bool * UserAgent :=
  let p' :=
    if strings.Contains (ua p) "Google" || strings.Contains (ua p) "bingbot"
    then mkUserAgent (ua p) (mozilla p) "" (os p) (localization p) (bot p)
           true (browser p)
    else p in
  (undecided p', p').

Definition iMessagePreview (p : UserAgent) : bool * UserAgent :=
  if negb (strings.Contains (ua p) "facebookexternalhit") then (false, p)
  else if negb (strings.Contains (ua p) "Twitterbot") then (false, p)
  else
    (true,
     mkUserAgent (ua p) (mozilla p) (platform p) (os p) (localization p) true
       (undecided p)
       (mkBrowser "iMessage-Preview" (Version (browser p)) "" "")).

Definition setSimple (name version : string) (bot : bool) (p : UserAgent)
  : UserAgent :=
  mkUserAgent (ua p) (if negb bot then "" else mozilla p) (platform p) "" ""
    bot (undecided p) (mkBrowser name version "" "").

Definition fixOther (sections : list section) (p : UserAgent) : UserAgent :=
  match sections with
  | s0 :: _ =>
      mkUserAgent (ua p) "" (platform p) (os p) (localization p) (bot p)
        (undecided p)
        (mkBrowser (name s0) (version s0) (Engine (browser p))
           (EngineVersion (browser p)))
  | [] => p
  end.

Fixpoint containsAny (s : string) (bots : list string) : bool :=
  match bots with
  | [] => false
  | b :: rest =>
      if strings.Contains (strings.ToLower s) (strings.ToLower b) then true
      else containsAny s rest
  end.

Definition isKnownBadBot (s : string) : bool :=
  containsAny s LoadBadBotsYAML.

(** The loop [for i, ch := range ver] of [checkBot]: [ver] is cut at its
    first space or semicolon.  The loop reads runes; both characters are
    ASCII, so the first such byte is the first such rune. *)
Fixpoint cutVersion (ver : string) : string :=
  match ver with
  | "" => ""
  | String ch t =>
      if Ascii.eqb ch " " || Ascii.eqb ch ";" then "" else String ch (cutVersion t)
  end.

(** The loop over the identifiers in [checkBot], for one comment field [c]:
    the values of [matched], [matchedVersion] and [matchedOriginal] when it
    ends. *)
Fixpoint scanBots (bots : list string) (c : string)
  : result (string * string * string) :=
  match bots with
  | [] => Ok ("", "", "")
  | b :: rest =>
      match strings.Index (strings.ToLower c) (strings.ToLower b) with
      | Some idx =>
          matchedOriginal <- slice c idx (idx + len b) ;;
          lowerC <- sliceFrom c idx ;;
          let matchedVersion :=
            match strings.SplitN2 lowerC "/" with
            | [_; ver] => cutVersion ver
            | _ => ""
            end in
          Ok (b, matchedVersion, matchedOriginal)
      | None => scanBots rest c
      end
  end.

(** One turn of the loop over the comment fields: the name and version
    handed to [setSimple], or [None] when the loop goes on. *)
Definition matchField (c : string) : result (option (string * string)) :=
  r <- scanBots LoadBadBotsYAML c ;;
  let '(matched, matchedVersion, matchedOriginal) := r in
  if negb (String.eqb matched "") then
    let nameToSet :=
      if String.eqb matchedOriginal "" then matched else matchedOriginal in
    Ok (Some (nameToSet, matchedVersion))
  else Ok None.

Fixpoint scanComments (cs : list string) : result (option (string * string)) :=
  match cs with
  | [] => Ok None
  | c :: rest =>
      r <- matchField c ;;
      match r with
      | Some found => Ok (Some found)
      | None => scanComments rest
      end
  end.

(** The [else] branch of [checkBot]: the loop over the sections. *)
Fixpoint checkSections (p : UserAgent) (sections : list section)
  : result (bool * UserAgent) :=
  match sections with
  | [] => Ok (false, p)
  | v :: rest =>
      r <- scanComments (comment v) ;;
      match r with
      | Some (nameToSet, matchedVersion) =>
          Ok (true, setSimple nameToSet matchedVersion true p)
      | None =>
          site <- getFromSite (comment v) ;;
          if negb (String.eqb site "") then
            match strings.SplitN2 site "/" with
            | [r0; r1] => Ok (true, setSimple r0 r1 true p)
            | r0 :: _ => Ok (true, setSimple r0 "" true p)
            | [] => Panic
            end
          else if isKnownBadBot (name v) then
            Ok (true, setSimple (name v) (version v) true p)
          else checkSections p rest
      end
  end.

Definition checkBot (p : UserAgent) (sections : list section)
  : result (bool * UserAgent) :=
  match sections with
  | [s0] =>
      if negb (String.eqb (name s0) "Mozilla") then
        if isKnownBadBot (name s0) then
          Ok (true, setSimple (name s0) (version s0) true p)
        else
          site <- getFromSite (comment s0) ;;
          if negb (String.eqb site "") then
            Ok (true, setSimple (name s0) (version s0) true p)
          else Ok (false, p)
      else checkSections p sections
  | _ => checkSections p sections
  end.

End Bot.

(** ** The specification's vocabulary *)

(** The text after the first [d] of [s], when [s] has one. *)
Fixpoint afterFirst (d : ascii) (s : string) : option string :=
  match s with
  | "" => None
  | String a t => if Ascii.eqb a d then Some t else afterFirst d t
  end.

(** The text before the first [d] of [s]; all of [s] when it has none. *)
Fixpoint beforeFirst (d : ascii) (s : string) : string :=
  match s with
  | "" => ""
  | String a t => if Ascii.eqb a d then "" else String a (beforeFirst d t)
  end.

(** Position of the first space or semicolon of [s], else its length. *)
Fixpoint tokenEnd (s : string) : nat :=
  match s with
  | "" => 0
  | String a t => if Ascii.eqb a " " || Ascii.eqb a ";" then 0 else S (tokenEnd t)
  end.

(** Version extraction on a text [s]: split on the first slash; a second
    part, when there is one, is truncated at its first space or semicolon;
    otherwise the version is empty. *)
Definition versionFrom (s : string) : string :=
  match afterFirst "/" s with
  | Some v => take (tokenEnd v) v
  | None => ""
  end.

(** The target index of the site reference extractor: 0 for fewer than 3
    fields, 3 for exactly 4 fields, otherwise 2. *)
Definition siteIndex (n : nat) : nat :=
  if n <? 3 then 0 else if n =? 4 then 3 else 2.

(** The pattern [r] matches somewhere in [s]. *)
Definition Matches (r : regexp.regex) (s : string) : Prop :=
  exists pre m post, s = pre +++ m +++ post /\ regexp.lang r m.

(** The positional scan in the specification's words: the first identifier,
    in list order, whose ASCII-lower-cased form occurs in the
    ASCII-lower-cased field, and the position found. *)
Fixpoint asciiHit (bots : list string) (c : string) : option (string * nat) :=
  match bots with
  | [] => None
  | b :: rest =>
      match strings.Index (strings.lowerASCII c) (strings.lowerASCII b) with
      | Some idx => Some (b, idx)
      | None => asciiHit rest c
      end
  end.

Section Spec.

Context {U : GoUnicode}.
Variable badBotsList : list string.

(** The positional scan: the first identifier, in list order, whose
    lower-cased form occurs in the lower-cased field, and where. *)
Fixpoint firstHit (bots : list string) (c : string) : option (string * nat) :=
  match bots with
  | [] => None
  | b :: rest =>
      match strings.Index (strings.ToLower c) (strings.ToLower b) with
      | Some idx => Some (b, idx)
      | None => firstHit rest c
      end
  end.

(** [getFromSite] looks at the field of index [i] and at no other field but
    the one before it: without a match there the result is empty, and with a
    match it is the match when [i] is 0 and the trimmed field of index
    [i - 1] otherwise. *)
Definition inspects (comment : list string) (i : nat) : Prop :=
  exists field,
    nth_error comment i = Some field /\
    (~ Matches botFromSiteRegexp field -> getFromSite comment = Ok "") /\
    (Matches botFromSiteRegexp field ->
     exists m prev,
       regexp.FindStringSubmatch botFromSiteRegexp field = [m] /\
       nth_error comment (i - 1) = Some prev /\
       getFromSite comment = Ok (if i =? 0 then m else strings.TrimSpace prev)).

(** No comment field of the section has a positional match. *)
Definition noFieldMatch (v : section) : Prop :=
  Forall (fun c => matchField badBotsList c = Ok None) (comment v).

(** The section produces no match of any of the three kinds. *)
Definition quiet (v : section) : Prop :=
  noFieldMatch v /\
  getFromSite (comment v) = Ok "" /\
  isKnownBadBot badBotsList (name v) = false.

(** The section list takes the general path of [checkBot]. *)
Definition generalPath (sections : list section) : Prop :=
  1 < length sections \/ exists v, sections = [v] /\ name v = "Mozilla".

End Spec.

(** ** The package variables behind LoadBadBotsYAML

    [checkBot] and [isKnownBadBot] above take the list [LoadBadBotsYAML]
    returns as given.  The function itself is modelled here, one call at a
    time and without concurrency: [badBotsOnce.Do] runs its argument on the
    first call only. *)

Record badBotsVars : Type := mkBadBotsVars {
  varBadBotsList : list string;   (* badBotsList; [nil] until assigned *)
  onceDone : bool                 (* whether badBotsOnce has run *)
}.

(** The variables when the program starts. *)
Definition initialVars : badBotsVars := mkBadBotsVars [] false.

(** One call of [LoadBadBotsYAML].  [file] is what
    [LoadBadBots("bad_bots.yaml")] returns if it is called now: the list it
    read, or [None] for an error. *)
Definition LoadBadBotsYAML_call (file : option (list string)) (g : badBotsVars)
  : list string * badBotsVars :=
  let g' :=
    if onceDone g then g
    else
      mkBadBotsVars
        (match file with
         | Some list => list
         | None => varBadBotsList g
         end)
        true in
  (varBadBotsList g', g').

(** Successive calls, each with the file's state at that moment: what each
    call returns. *)
Fixpoint LoadBadBotsYAML_calls (files : list (option (list string)))
  (g : badBotsVars) : list (list string) :=
  match files with
  | [] => []
  | file :: later =>
      let '(r, g') := LoadBadBotsYAML_call file g in
      r :: LoadBadBotsYAML_calls later g'
  end.

(** ** Further vocabulary *)

(** A character other than the space and the semicolon. *)
Definition versionChar (ch : ascii) : bool :=
  negb (Ascii.eqb ch " " || Ascii.eqb ch ";").

(** Every identifier of the list is ASCII. *)
Definition asciiList (bots : list string) : Prop :=
  Forall (fun b => strings.isASCII b = true) bots.

(** Every comment field of every section is ASCII. *)
Definition asciiFields (sections : list section) : Prop :=
  Forall (fun v => asciiList (comment v)) sections.

(** [sub] stands somewhere in [s]. *)
Definition substringOf (sub s : string) : Prop :=
  exists pre post, s = pre +++ sub +++ post.


(** ** Sample inputs *)

(** A record that an earlier pass has already filled in. *)
Definition sampleRecord : UserAgent :=
  mkUserAgent "curl/7.68.0" "5.0" "Macintosh" "Intel Mac OS X 10_11_1" "en-US"
    false false (mkBrowser "Safari" "9.0.1" "AppleWebKit" "601.2.4").

Definition curlSection : section := mkSection "curl" "7.68.0" [].

(** A header that carries both markers [iMessagePreview] looks for. *)
Definition iMessageRecord : UserAgent :=
  mkUserAgent
    "Mozilla/5.0 (Macintosh; Intel Mac OS X 10_11_1) AppleWebKit/601.2.4 (KHTML, like Gecko) Version/9.0.1 Safari/601.2.4 facebookexternalhit/1.1 Facebot Twitterbot/1.0"
    "5.0" "Macintosh" "Intel Mac OS X 10_11_1" "en-US" false false
    (mkBrowser "Safari" "9.0.1" "AppleWebKit" "601.2.4").

(** A comment field with two site references, one per line. *)
Definition twoSites : string := "http://a.b" +++ String "010" "http://c.d".

Definition gptSection : section :=
  mkSection "Mozilla" "5.0"
    ["compatible"; "GPTBot/1.0"; ";+https://openai.com/gptbot"].

Definition googlebotComment : list string :=
  ["compatible"; "Googlebot/2.1"; "+http://www.google.com/bot.html"].

(** The bytes of U+023A twice and "bot", and the same text with U+2C65 for
    U+023A, its lower case, which is one byte longer in UTF-8. *)
Definition strokeField : string :=
  String "200" (String "186" (String "200" (String "186" "bot"))).

Definition strokeFieldLower : string :=
  String "226" (String "177" (String "165"
    (String "226" (String "177" (String "165" "bot"))))).

(** A "Mozilla" section whose only comment field is a site reference. *)
Definition baiduSection : section :=
  mkSection "Mozilla" "5.0" ["+http://www.baidu.com/search/spider.htm"].


(** * Properties *)

(** ** Byte strings *)

Section StringFacts.

Lemma len_append (a b : string) : len (a +++ b) = len a + len b.
Proof. induction a as [|x a IH]; simpl; [reflexivity | now rewrite IH]. Qed.

Lemma append_assoc (a b c : string) : (a +++ b) +++ c = a +++ (b +++ c).
Proof. induction a as [|x a IH]; simpl; [reflexivity | now rewrite IH]. Qed.

Lemma append_nil_r (a : string) : a +++ "" = a.
Proof. induction a as [|x a IH]; simpl; [reflexivity | now rewrite IH]. Qed.

Lemma take_drop (n : nat) (s : string) : take n s +++ drop n s = s.
Proof.
  revert s; induction n as [|n IH]; intros [|a t]; simpl; try reflexivity.
  now rewrite IH.
Qed.

Lemma len_take (n : nat) (s : string) : len (take n s) = Nat.min n (len s).
Proof.
  revert s; induction n as [|n IH]; intros [|a t]; simpl; try reflexivity.
  now rewrite IH.
Qed.

Lemma len_drop (n : nat) (s : string) : len (drop n s) = len s - n.
Proof.
  revert s; induction n as [|n IH]; intros [|a t]; simpl; try reflexivity.
  apply IH.
Qed.

Lemma drop_drop (n m : nat) (s : string) : drop m (drop n s) = drop (n + m) s.
Proof.
  revert s; induction n as [|n IH]; intros s; simpl; [reflexivity|].
  destruct s as [|a t]; [now destruct m | apply IH].
Qed.

Lemma drop_append (a b : string) : drop (len a) (a +++ b) = b.
Proof. induction a as [|x a IH]; simpl; [now destruct b | exact IH]. Qed.

Lemma take_append (a b : string) : take (len a) (a +++ b) = a.
Proof. induction a as [|x a IH]; simpl; [now destruct b | now rewrite IH]. Qed.

Lemma len_zero (s : string) : len s = 0 -> s = "".
Proof. now destruct s. Qed.

Lemma HasPrefix_append (p rest : string) : strings.HasPrefix (p +++ rest) p = true.
Proof.
  induction p as [|a p IH]; simpl; [reflexivity|].
  now rewrite Ascii.eqb_refl, IH.
Qed.

Lemma HasPrefix_split (s p : string) :
  strings.HasPrefix s p = true -> s = p +++ drop (len p) s.
Proof.
  revert s; induction p as [|a p IH]; intros s H; simpl in *.
  - now destruct s.
  - destruct s as [|b s]; [discriminate|].
    apply andb_prop in H as [Hab Hp].
    apply Ascii.eqb_eq in Hab; subst b.
    simpl. f_equal. now apply IH.
Qed.

Lemma HasPrefix_len (s p : string) :
  strings.HasPrefix s p = true -> len p <= len s.
Proof.
  intros H. apply HasPrefix_split in H.
  rewrite H, len_append. lia.
Qed.

(** [Index] answers a position where [substr] stands, inside [s]. *)
Lemma Index_Some (s substr : string) (i : nat) :
  strings.Index s substr = Some i ->
  strings.HasPrefix (drop i s) substr = true /\ i + len substr <= len s.
Proof.
  revert i; induction s as [|a t IH]; intros i; simpl.
  - destruct (strings.HasPrefix "" substr) eqn:E; [|discriminate].
    intros [= <-]. split; [exact E|].
    apply HasPrefix_len in E. simpl in *. lia.
  - destruct (strings.HasPrefix (String a t) substr) eqn:E.
    + intros [= <-]. split; [exact E|].
      apply HasPrefix_len in E. simpl in *. lia.
    + destruct (strings.Index t substr) as [j|]; simpl; [|discriminate].
      intros [= <-]. destruct (IH j eq_refl) as [H1 H2].
      split; [exact H1 | simpl; lia].
Qed.

(** ... and [None] only when [substr] stands nowhere in [s]. *)
Lemma Index_None (s substr : string) :
  strings.Index s substr = None ->
  forall pre post, s <> pre +++ substr +++ post.
Proof.
  induction s as [|a t IH]; simpl.
  - destruct (strings.HasPrefix "" substr) eqn:E; [discriminate|].
    intros _ pre post H.
    destruct pre; simpl in H; [|discriminate].
    rewrite H, HasPrefix_append in E. discriminate.
  - destruct (strings.HasPrefix (String a t) substr) eqn:E; [discriminate|].
    destruct (strings.Index t substr) eqn:Et; simpl; [discriminate|].
    intros _ pre post H.
    destruct pre as [|x pre]; simpl in H.
    + rewrite H, HasPrefix_append in E. discriminate.
    + injection H as _ H. exact (IH eq_refl pre post H).
Qed.

Lemma len_lowerASCII (s : string) : len (strings.lowerASCII s) = len s.
Proof. induction s as [|a t IH]; simpl; [reflexivity | now rewrite IH]. Qed.

Lemma ToLower_ASCII {U : GoUnicode} (s : string) :
  strings.isASCII s = true -> strings.ToLower s = strings.lowerASCII s.
Proof. intros H. unfold strings.ToLower. now rewrite H. Qed.

Lemma len_ToLower_ASCII {U : GoUnicode} (s : string) :
  strings.isASCII s = true -> len (strings.ToLower s) = len s.
Proof. intros H. rewrite ToLower_ASCII by exact H. apply len_lowerASCII. Qed.

End StringFacts.

(** ** The backtracking matcher against the patterns' denotation *)

Section RegexpFacts.

Import regexp.

Lemma litK_sound (l s : string) (k : string -> option string) (x : string) :
  litK l s k = Some x -> exists rest, s = l +++ rest /\ k rest = Some x.
Proof.
  revert s; induction l as [|a l IH]; intros s H; simpl in H.
  - now exists s.
  - destruct s as [|b t]; [discriminate|].
    destruct (Ascii.eqb a b) eqn:E; [|discriminate].
    apply Ascii.eqb_eq in E; subst b.
    destruct (IH _ H) as (rest & -> & Hk). now exists rest.
Qed.

Lemma litK_complete (l rest : string) (k : string -> option string) :
  litK l (l +++ rest) k = k rest.
Proof.
  induction l as [|a l IH]; simpl; [reflexivity|].
  now rewrite Ascii.eqb_refl.
Qed.

Lemma plusK_sound (p : ascii -> bool) (s : string) (k : string -> option string)
  (x : string) :
  plusK p s k = Some x ->
  exists m rest, s = m +++ rest /\ m <> "" /\ allChars p m = true /\ k rest = Some x.
Proof.
  revert x; induction s as [|a t IH]; intros x H; simpl in H; [discriminate|].
  destruct (p a) eqn:Pa; [|discriminate].
  destruct (plusK p t k) as [y|] eqn:E.
  - injection H as <-.
    destruct (IH y eq_refl) as (m & rest & -> & _ & Hall & Hk).
    exists (String a m), rest. simpl. rewrite Pa, Hall.
    repeat split; [discriminate | exact Hk].
  - exists (String a ""), t. simpl. rewrite Pa.
    repeat split; [discriminate | exact H].
Qed.

Lemma plusK_complete (p : ascii -> bool) (m rest : string)
  (k : string -> option string) :
  m <> "" -> allChars p m = true -> k rest <> None ->
  plusK p (m +++ rest) k <> None.
Proof.
  induction m as [|a m IH]; intros Hne Hall Hk; [congruence|].
  simpl in *. apply andb_prop in Hall as [Pa Hall]. rewrite Pa.
  destruct (plusK p (m +++ rest) k) eqn:E; [discriminate|].
  destruct m as [|b m'].
  - exact Hk.
  - exfalso. apply IH; [discriminate | exact Hall | exact Hk | reflexivity].
Qed.

(** Whatever the search finds is in the pattern's language ... *)
Lemma matchK_sound (r : regex) :
  forall (s : string) (k : string -> option string) (x : string),
    matchK r s k = Some x ->
    exists m rest, s = m +++ rest /\ lang r m /\ k rest = Some x.
Proof.
  induction r as [l | p | r IH | p | r1 IH1 r2 IH2]; intros s k x H; simpl in H.
  - destruct (litK_sound _ _ _ _ H) as (rest & -> & Hk).
    now exists l, rest.
  - destruct s as [|a t]; [discriminate|].
    destruct (p a) eqn:Pa; [|discriminate].
    exists (String a ""), t. simpl. repeat split; [|exact H].
    now exists a.
  - destruct (matchK r s k) as [y|] eqn:E.
    + injection H as <-.
      destruct (IH _ _ _ E) as (m & rest & -> & Hm & Hk).
      exists m, rest. simpl. auto.
    + exists "", s. simpl. auto.
  - destruct (plusK_sound _ _ _ _ H) as (m & rest & -> & Hne & Hall & Hk).
    exists m, rest. simpl. auto.
  - destruct (IH1 _ _ _ H) as (m1 & rest1 & -> & Hm1 & H2).
    destruct (IH2 _ _ _ H2) as (m2 & rest & -> & Hm2 & Hk).
    exists (m1 +++ m2), rest. rewrite append_assoc.
    repeat split; [|exact Hk].
    simpl. now exists m1, m2.
Qed.

(** ... and it finds a match wherever the language has one. *)
Lemma matchK_complete (r : regex) :
  forall (m rest : string) (k : string -> option string),
    lang r m -> k rest <> None -> matchK r (m +++ rest) k <> None.
Proof.
  induction r as [l | p | r IH | p | r1 IH1 r2 IH2]; intros m rest k Hm Hk;
    simpl in *.
  - subst m. now rewrite litK_complete.
  - destruct Hm as (a & Pa & ->). simpl. now rewrite Pa.
  - destruct (matchK r (m +++ rest) k) eqn:E; [discriminate|].
    destruct Hm as [-> | Hm]; [exact Hk|].
    exfalso. now apply (IH m rest k Hm Hk).
  - destruct Hm as [Hne Hall]. now apply plusK_complete.
  - destruct Hm as (s1 & s2 & -> & H1 & H2).
    rewrite append_assoc. apply IH1; [exact H1|]. now apply IH2.
Qed.

Lemma matchHere_sound (r : regex) (s m : string) :
  matchHere r s = Some m -> exists rest, s = m +++ rest /\ lang r m.
Proof.
  unfold matchHere. destruct (matchK r s Some) as [x|] eqn:E; [|discriminate].
  intros [= <-].
  destruct (matchK_sound _ _ _ _ E) as (m & rest & -> & Hm & [= ->]).
  exists x. rewrite len_append.
  replace (len m + len x - len x) with (len m) by lia.
  now rewrite take_append.
Qed.

Lemma matchHere_complete (r : regex) (m rest : string) :
  lang r m -> matchHere r (m +++ rest) <> None.
Proof.
  intros Hm. unfold matchHere.
  destruct (matchK r (m +++ rest) Some) eqn:E; [discriminate|].
  exfalso. now apply (matchK_complete r m rest Some Hm).
Qed.

(** The leftmost match is a match of the pattern inside the text. *)
Lemma find_sound (r : regex) (s : string) (i : nat) (m : string) :
  find r s = Some (i, m) ->
  i + len m <= len s /\ s = take i s +++ m +++ drop (i + len m) s /\ lang r m.
Proof.
  revert i; induction s as [|a t IH]; intros i; cbn [find].
  - destruct (matchHere r "") as [m0|] eqn:E; [|discriminate].
    intros [= <- <-].
    destruct (matchHere_sound _ _ _ E) as (rest & Hs & Hm).
    assert (len "" = len (m0 +++ rest)) by now rewrite <- Hs.
    rewrite len_append in H. simpl in H.
    assert (m0 = "") by (apply len_zero; lia). subst m0.
    simpl. auto.
  - destruct (matchHere r (String a t)) as [m0|] eqn:E.
    + intros [= <- <-].
      destruct (matchHere_sound _ _ _ E) as (rest & Hs & Hm).
      split; [|split; [|exact Hm]].
      * rewrite Hs, len_append. lia.
      * cbn [take plus append]. rewrite Hs at 2. rewrite drop_append.
        exact Hs.
    + destruct (find r t) as [[j m1]|]; [|discriminate].
      intros [= <- <-].
      destruct (IH j eq_refl) as (Hle & Hs & Hm).
      split; [simpl; lia | split; [|exact Hm]].
      simpl. f_equal. exact Hs.
Qed.

Lemma find_complete (r : regex) (s : string) :
  Matches r s -> find r s <> None.
Proof.
  intros (pre & m & post & -> & Hm).
  induction pre as [|a pre IH]; simpl.
  - destruct m as [|b m]; simpl.
    + pose proof (matchHere_complete r "" post Hm) as H. simpl in H.
      destruct post; simpl;
        destruct (matchHere r _); try discriminate; congruence.
    + pose proof (matchHere_complete r (String b m) post Hm) as H.
      simpl in H. destruct (matchHere r _); [discriminate | congruence].
  - destruct (matchHere r _); [discriminate|].
    destruct (find r (pre +++ m +++ post)) as [[j m1]|]; [discriminate|].
    exact IH.
Qed.

Lemma find_Matches (r : regex) (s : string) :
  Matches r s <-> exists i m, find r s = Some (i, m).
Proof.
  split.
  - intros H. apply find_complete in H.
    destruct (find r s) as [[i m]|]; [now exists i, m | congruence].
  - intros (i & m & H). apply find_sound in H as (_ & Hs & Hm).
    now exists (take i s), m, (drop (i + len m) s).
Qed.

Lemma FindStringSubmatch_nil (r : regex) (s : string) :
  FindStringSubmatch r s = [] <-> ~ Matches r s.
Proof.
  unfold FindStringSubmatch. rewrite find_Matches.
  destruct (find r s) as [[i m]|]; split; intros H; try discriminate.
  - exfalso. apply H. now exists i, m.
  - intros (i & m & [=]).
  - reflexivity.
Qed.

Lemma FindStringSubmatch_match (r : regex) (s : string) :
  Matches r s -> exists m, FindStringSubmatch r s = [m] /\ lang r m.
Proof.
  intros H. apply find_Matches in H as (i & m & H).
  exists m. unfold FindStringSubmatch. rewrite H.
  apply find_sound in H. tauto.
Qed.

(** The number of successive matches is positive exactly when the pattern
    matches somewhere. *)
Lemma countMatches_pos (r : regex) (s : string) :
  1 <= countMatches r s <-> Matches r s.
Proof.
  unfold countMatches. simpl. rewrite find_Matches.
  destruct (find r s) as [[i m]|]; split; intros H.
  - now exists i, m.
  - lia.
  - lia.
  - destruct H as (i & m & [=]).
Qed.

(** For a pattern that matches no empty text every match uses up at least
    one byte, so the fuel of [countMatches] is never exhausted: more fuel
    counts the same matches. *)
Lemma countFrom_enough (r : regex) :
  (forall m, lang r m -> m <> "") ->
  forall (fuel n : nat) (s : string),
    len s < fuel -> len s < n -> countFrom fuel r s = countFrom n r s.
Proof.
  intros Hne. induction fuel as [|fuel IH]; intros n s Hf Hn; [lia|].
  destruct n as [|n]; [lia|]. cbn [countFrom].
  destruct (find r s) as [[i m]|] eqn:E; [|reflexivity].
  f_equal. apply find_sound in E as (Hle & _ & Hm).
  assert (0 < len m).
  { destruct m; [now apply Hne in Hm | simpl; lia]. }
  apply IH; rewrite len_drop; lia.
Qed.


End RegexpFacts.

(** ** bot.go *)

Section BotFacts.

Context {U : GoUnicode}.
Variable badBotsList : list string.

(** *** getFromSite *)

(** [getFromSite] on a non-empty list, by the field at [siteIndex] and the
    one before it. *)
Lemma getFromSite_fields (comment : list string) :
  comment <> [] ->
  let idx := siteIndex (length comment) in
  exists field prev,
    nth_error comment idx = Some field /\
    nth_error comment (idx - 1) = Some prev /\
    getFromSite comment =
      Ok (match regexp.find botFromSiteRegexp field with
          | Some (_, m) => if idx =? 0 then m else strings.TrimSpace prev
          | None => ""
          end).
Proof.
  intros Hne.
  destruct comment as [|c0 [|c1 [|c2 [|c3 [|c4 rest]]]]]; [congruence|..];
    unfold getFromSite, regexp.FindStringSubmatch, siteIndex, at_;
    cbn [length Nat.eqb Nat.ltb Nat.leb nth_error Nat.sub bind].
  - exists c0, c0. repeat split.
    destruct (regexp.find botFromSiteRegexp c0) as [[i m]|]; reflexivity.
  - exists c0, c0. repeat split.
    destruct (regexp.find botFromSiteRegexp c0) as [[i m]|]; reflexivity.
  - exists c2, c1. repeat split.
    destruct (regexp.find botFromSiteRegexp c2) as [[i m]|]; reflexivity.
  - exists c3, c2. repeat split.
    destruct (regexp.find botFromSiteRegexp c3) as [[i m]|]; reflexivity.
  - exists c2, c1. repeat split.
    destruct (regexp.find botFromSiteRegexp c2) as [[i m]|]; reflexivity.
Qed.

(** [getFromSite] never indexes out of range. *)
Lemma getFromSite_total (comment : list string) :
  exists r, getFromSite comment = Ok r.
Proof.
  destruct comment as [|c0 rest] eqn:E.
  - now exists "".
  - destruct (getFromSite_fields (c0 :: rest)) as (f & q & _ & _ & H);
      [discriminate|].
    rewrite H. eauto.
Qed.

(** The pattern matches no empty text. *)
Lemma botFromSite_nonempty (m : string) :
  regexp.lang botFromSiteRegexp m -> m <> "".
Proof.
  intros (s1 & s2 & -> & H1 & _). simpl in H1. subst s1. discriminate.
Qed.

Lemma inspects_siteIndex (comment : list string) :
  comment <> [] -> inspects comment (siteIndex (length comment)).
Proof.
  intros Hne.
  destruct (getFromSite_fields comment Hne) as (field & prev & Hf & Hp & Hg).
  exists field. split; [exact Hf|]. split.
  - intros Hno. rewrite Hg.
    destruct (regexp.find botFromSiteRegexp field) as [[i m]|] eqn:E;
      [|reflexivity].
    exfalso. apply Hno. apply find_Matches. now exists i, m.
  - intros Hm. apply find_Matches in Hm as (i & m & E).
    exists m, prev. unfold regexp.FindStringSubmatch.
    rewrite Hg, E. auto.
Qed.

(** C6: an empty list gives the empty string; otherwise [getFromSite] looks
    at index 0 when there are fewer than 3 fields, at index 3 when there are
    exactly 4, and at index 2 when there are 3 or at least 5; a field
    without a match at that index gives the empty string whatever the other
    fields hold. *)
Theorem C6_getFromSite_index (comment : list string) :
  (comment = [] -> getFromSite comment = Ok "") /\
  (comment <> [] -> length comment < 3 -> inspects comment 0) /\
  (length comment = 4 -> inspects comment 3) /\
  (length comment = 3 \/ 5 <= length comment -> inspects comment 2).
Proof.
  repeat split.
  - intros ->. reflexivity.
  - intros Hne Hlt.
    replace 0 with (siteIndex (length comment)); [now apply inspects_siteIndex|].
    unfold siteIndex. destruct (Nat.ltb_spec (length comment) 3); [reflexivity | lia].
  - intros H4.
    replace 3 with (siteIndex (length comment)).
    + apply inspects_siteIndex. intros ->. discriminate.
    + rewrite H4. reflexivity.
  - intros H.
    replace 2 with (siteIndex (length comment)).
    + apply inspects_siteIndex. intros ->. simpl in H. lia.
    + unfold siteIndex.
      destruct (Nat.ltb_spec (length comment) 3); [lia|].
      destruct (Nat.eqb_spec (length comment) 4); [lia | reflexivity].
Qed.

(** C5 (amended): [getFromSite] returns a non-empty result only when the
    pattern matches the field at the target index at least once, and the
    empty string when it does not match; once it matches, the number of
    matches plays no part: the result is the leftmost match when the target
    index is 0, and the trimmed preceding field otherwise. *)
Theorem C5_getFromSite_match (comment : list string) (field : string) :
  nth_error comment (siteIndex (length comment)) = Some field ->
  exists r,
    getFromSite comment = Ok r /\
    (r <> "" -> 1 <= regexp.countMatches botFromSiteRegexp field) /\
    (regexp.countMatches botFromSiteRegexp field = 0 -> r = "") /\
    (1 <= regexp.countMatches botFromSiteRegexp field ->
     exists m prev,
       regexp.FindStringSubmatch botFromSiteRegexp field = [m] /\
       m <> "" /\
       nth_error comment (siteIndex (length comment) - 1) = Some prev /\
       r = if siteIndex (length comment) =? 0 then m
           else strings.TrimSpace prev).
Proof.
  intros Hf.
  assert (Hne : comment <> []) by (intros ->; discriminate).
  destruct (getFromSite_fields comment Hne) as (field' & prev & Hf' & Hp & Hg).
  cbv zeta in Hf', Hp, Hg. rewrite Hf in Hf'. injection Hf' as <-.
  eexists. split; [exact Hg|].
  destruct (regexp.find botFromSiteRegexp field) as [[i m]|] eqn:E.
  - assert (Hpos : 1 <= regexp.countMatches botFromSiteRegexp field).
    { apply countMatches_pos, find_Matches. now exists i, m. }
    split; [auto|]. split; [lia|].
    intros _. exists m, prev. unfold regexp.FindStringSubmatch. rewrite E.
    repeat split; [|exact Hp].
    apply botFromSite_nonempty. now apply find_sound in E.
  - assert (Hzero : ~ 1 <= regexp.countMatches botFromSiteRegexp field).
    { rewrite countMatches_pos, find_Matches. intros (i & m & H). congruence. }
    split; [congruence|]. split; [reflexivity|]. intros H. contradiction.
Qed.


(** The texts the pattern denotes: "http", an optional "s", "://", one or
    more characters other than a newline, a dot, one or more word
    characters. *)
Lemma botFromSite_shape (m : string) :
  regexp.lang botFromSiteRegexp m <->
  exists s host word,
    m = "http" +++ s +++ "://" +++ host +++ "." +++ word /\
    (s = "" \/ s = "s") /\
    host <> "" /\ regexp.allChars regexp.anyChar host = true /\
    word <> "" /\ regexp.allChars regexp.wordChar word = true.
Proof.
  split.
  - intros (h & t1 & -> & -> & s & t2 & -> & Hs & c & t3 & -> & ->
            & host & t4 & -> & [Hh1 Hh2] & d & word & -> & -> & [Hw1 Hw2]).
    exists s, host, word. repeat split; try assumption.
    destruct Hs as [-> | (a & Ha & ->)]; [now left | right].
    apply Ascii.eqb_eq in Ha. now subst a.
  - intros (s & host & word & -> & Hs & Hh1 & Hh2 & Hw1 & Hw2).
    exists "http", (s +++ "://" +++ host +++ "." +++ word).
    repeat split.
    exists s, ("://" +++ host +++ "." +++ word). repeat split.
    { destruct Hs as [-> | ->]; [now left | right]. now exists "s"%char. }
    exists "://", (host +++ "." +++ word). repeat split.
    exists host, ("." +++ word). repeat split; try assumption.
    exists ".", word. repeat split; assumption.
Qed.

(** [fixOther] touches the browser name, the browser version and [mozilla],
    and nothing else. *)
Lemma fixOther_fields (s0 : section) (rest : list section) (p : UserAgent) :
  let p' := fixOther (s0 :: rest) p in
  Name (browser p') = name s0 /\ Version (browser p') = version s0 /\
  mozilla p' = "" /\
  Engine (browser p') = Engine (browser p) /\
  EngineVersion (browser p') = EngineVersion (browser p) /\
  os p' = os p /\ localization p' = localization p /\ bot p' = bot p.
Proof. cbn. repeat split. Qed.


(** *** The positional scan of a comment field *)

Lemma Index_slash (s : string) :
  match strings.Index s "/" with
  | Some m => afterFirst "/" s = Some (drop (m + 1) s) /\
              take m s = beforeFirst "/" s
  | None => afterFirst "/" s = None /\ beforeFirst "/" s = s
  end.
Proof.
  induction s as [|a t IH]; [now split|].
  cbn [strings.Index strings.HasPrefix afterFirst beforeFirst].
  rewrite Ascii.eqb_sym, andb_true_r.
  destruct (Ascii.eqb a "/"); [now split|].
  destruct (strings.Index t "/") as [m|]; cbn [option_map].
  - destruct IH as [H1 H2]. split; [exact H1|]. simpl. now rewrite H2.
  - destruct IH as [H1 H2]. split; [exact H1|]. now rewrite H2.
Qed.

Lemma Contains_slash (s : string) :
  strings.Contains s "/" = false <-> afterFirst "/" s = None.
Proof.
  unfold strings.Contains. pose proof (Index_slash s) as H.
  destruct (strings.Index s "/"); destruct H as [H _]; rewrite H;
    split; congruence.
Qed.

Lemma cutVersion_tokenEnd (v : string) : cutVersion v = take (tokenEnd v) v.
Proof.
  induction v as [|a t IH]; [reflexivity|]. simpl.
  destruct (Ascii.eqb a " " || Ascii.eqb a ";"); [reflexivity|].
  now rewrite IH.
Qed.

(** The version the code extracts from [c[idx:]] is the specification's
    version extraction on that text. *)
Lemma SplitN2_version (s : string) :
  match strings.SplitN2 s "/" with
  | [_; ver] => cutVersion ver
  | _ => ""
  end = versionFrom s.
Proof.
  unfold strings.SplitN2, versionFrom. pose proof (Index_slash s) as H.
  destruct (strings.Index s "/") as [m|]; destruct H as [H _]; rewrite H.
  - apply cutVersion_tokenEnd.
  - reflexivity.
Qed.

Lemma afterFirst_skip (m rest : string) :
  afterFirst "/" m = None -> afterFirst "/" (m +++ rest) = afterFirst "/" rest.
Proof.
  induction m as [|a m IH]; [reflexivity|]. simpl.
  destruct (Ascii.eqb a "/"); [discriminate | exact IH].
Qed.

Lemma slice_in_range (c : string) (idx n : nat) :
  idx + n <= len c ->
  slice c idx (idx + n) = Ok (take n (drop idx c)) /\
  sliceFrom c idx = Ok (drop idx c).
Proof.
  intros H. unfold slice, sliceFrom.
  replace (idx + n - idx) with n by lia.
  destruct (Nat.leb_spec idx (idx + n)); [|lia].
  destruct (Nat.leb_spec (idx + n) (len c)); [|lia].
  destruct (Nat.leb_spec idx (len c)); [|lia].
  now split.
Qed.

Lemma scanBots_hit (bots : list string) (c b : string) (idx : nat) :
  firstHit bots c = Some (b, idx) ->
  idx + len b <= len c ->
  scanBots bots c =
    Ok (b, versionFrom (drop idx c), take (len b) (drop idx c)).
Proof.
  induction bots as [|b0 rest IH]; [discriminate|].
  cbn [firstHit scanBots].
  destruct (strings.Index (strings.ToLower c) (strings.ToLower b0)) as [i|].
  - intros [= -> ->] Hin.
    destruct (slice_in_range c idx (len b) Hin) as [-> ->].
    cbn [bind]. now rewrite SplitN2_version.
  - exact IH.
Qed.

Lemma scanBots_miss (bots : list string) (c : string) :
  firstHit bots c = None -> scanBots bots c = Ok ("", "", "").
Proof.
  induction bots as [|b0 rest IH]; [reflexivity|].
  cbn [firstHit scanBots].
  destruct (strings.Index (strings.ToLower c) (strings.ToLower b0));
    [discriminate | exact IH].
Qed.

(** On ASCII text the index found in the lower-cased field is an index of
    the field itself. *)
Lemma hit_in_range (c b : string) (idx : nat) :
  strings.isASCII c = true -> strings.isASCII b = true ->
  strings.Index (strings.ToLower c) (strings.ToLower b) = Some idx ->
  idx + len b <= len c.
Proof.
  intros Hc Hb H. apply Index_Some in H as [_ H].
  now rewrite (len_ToLower_ASCII _ Hc), (len_ToLower_ASCII _ Hb) in H.
Qed.

Lemma firstHit_in_range (bots : list string) (c b : string) (idx : nat) :
  strings.isASCII c = true ->
  Forall (fun b' => strings.isASCII b' = true) bots ->
  firstHit bots c = Some (b, idx) ->
  idx + len b <= len c.
Proof.
  intros Hc Hbots. induction Hbots as [|b0 rest Hb0 _ IH]; [discriminate|].
  cbn [firstHit].
  destruct (strings.Index (strings.ToLower c) (strings.ToLower b0)) eqn:E.
  - intros [= <- <-]. exact (hit_in_range _ _ _ Hc Hb0 E).
  - exact IH.
Qed.

Lemma take_nonempty (n : nat) (s : string) :
  0 < n -> 0 < len s -> take n s <> "".
Proof. destruct n, s; simpl; intros; try lia; discriminate. Qed.

(** For an ASCII field and ASCII identifiers the code's scan, which
    lower-cases with [strings.ToLower], is the scan with ASCII lower-casing. *)
Lemma firstHit_asciiHit (bots : list string) (c : string) :
  strings.isASCII c = true ->
  Forall (fun b => strings.isASCII b = true) bots ->
  firstHit bots c = asciiHit bots c.
Proof.
  intros Hc Hbots. induction Hbots as [|b0 rest Hb0 _ IH]; [reflexivity|].
  cbn [firstHit asciiHit].
  rewrite (ToLower_ASCII _ Hc), (ToLower_ASCII _ Hb0), IH. reflexivity.
Qed.

(** C3 (amended): for an ASCII comment field [c] and ASCII identifiers, when
    the scan of the identifiers, in list order, stops at the first one whose
    ASCII-lower-cased form occurs in the ASCII-lower-cased [c], and that
    identifier [b] is not empty, the name is the text of [c] at the found
    position [idx] of the identifier's length, and the version is extracted
    from the text of [c] that starts at [idx], the match included: split on
    the first slash and, when there is a second part, cut at its first space
    or semicolon, else empty.  When the matched text has no slash this is
    the version extracted from the text after the match.  The identifier
    "gptbot" against "GPTBot/1.1" gives the name "GPTBot" and the version
    "1.1"; "xbot" against "xbot/1.2.3;foo" gives the version "1.2.3". *)
Theorem C3_positional_match (c : string) :
  (forall b idx,
     strings.isASCII c = true ->
     Forall (fun b' => strings.isASCII b' = true) badBotsList ->
     asciiHit badBotsList c = Some (b, idx) ->
     b <> "" ->
     matchField badBotsList c =
       Ok (Some (take (len b) (drop idx c), versionFrom (drop idx c))) /\
     (strings.Contains (take (len b) (drop idx c)) "/" = false ->
      versionFrom (drop idx c) = versionFrom (drop (idx + len b) c))) /\
  matchField ["gptbot"] "GPTBot/1.1" = Ok (Some ("GPTBot", "1.1")) /\
  matchField ["xbot"] "xbot/1.2.3;foo" = Ok (Some ("xbot", "1.2.3")).
Proof.
  split; [|split; reflexivity].
  intros b idx Hc Hbots Hhit Hb.
  rewrite <- (firstHit_asciiHit _ _ Hc Hbots) in Hhit.
  pose proof (firstHit_in_range _ _ _ _ Hc Hbots Hhit) as Hin.
  split.
  - unfold matchField, LoadBadBotsYAML.
    rewrite (scanBots_hit _ _ _ _ Hhit Hin). cbn [bind].
    destruct (String.eqb_spec b ""); [contradiction|]. cbn [negb].
    destruct (String.eqb_spec (take (len b) (drop idx c)) "") as [E|]; [|reflexivity].
    exfalso. revert E. apply take_nonempty.
    + destruct b; [contradiction | simpl; lia].
    + rewrite len_drop. destruct b; [contradiction | simpl in *; lia].
  - intros Hno. apply Contains_slash in Hno.
    unfold versionFrom.
    rewrite <- (take_drop (len b) (drop idx c)) at 1.
    now rewrite (afterFirst_skip _ _ Hno), drop_drop.
Qed.

(** Beyond ASCII the amended statement promises nothing.  Where Go's
    lower-casing lengthens the text, as it does for U+023A, the position
    found in the lower-cased field is no position of the field: with the
    identifier "bot" the field [strokeField] of 7 bytes is sliced at [6:9]. *)
Lemma matchField_beyond_ascii :
  mapToLower strokeField = strokeFieldLower ->
  matchField ["bot"] strokeField = Panic.
Proof.
  intros H. unfold matchField, LoadBadBotsYAML. cbn [scanBots].
  unfold strings.ToLower at 1. cbn [strings.isASCII strokeField].
  replace (strings.isASCIIByte "200") with false by reflexivity.
  cbn [andb]. fold strokeField. rewrite H. reflexivity.
Qed.

(** An empty identifier stops the scan and leaves the field without a match. *)
Lemma matchField_empty_identifier (c : string) (idx : nat) :
  firstHit badBotsList c = Some ("", idx) ->
  idx <= len c ->
  matchField badBotsList c = Ok None.
Proof.
  intros Hhit Hin. unfold matchField, LoadBadBotsYAML.
  rewrite (scanBots_hit _ _ _ _ Hhit); [reflexivity | simpl; lia].
Qed.

Lemma matchField_miss (c : string) :
  firstHit badBotsList c = None -> matchField badBotsList c = Ok None.
Proof.
  intros H. unfold matchField, LoadBadBotsYAML.
  now rewrite (scanBots_miss _ _ H).
Qed.

(** C10: for an ASCII field and ASCII identifiers, the index found in the
    lower-cased field, taken with the identifier's length, lies within the
    original field: both slices of the extraction succeed, and the scan of
    the field does not panic. *)
Theorem C10_slice_in_bounds (c : string) :
  strings.isASCII c = true ->
  Forall (fun b => strings.isASCII b = true) badBotsList ->
  (forall b idx,
     In b badBotsList ->
     strings.Index (strings.ToLower c) (strings.ToLower b) = Some idx ->
     idx + len b <= len c /\
     slice c idx (idx + len b) = Ok (take (len b) (drop idx c)) /\
     sliceFrom c idx = Ok (drop idx c)) /\
  (exists r, scanBots badBotsList c = Ok r) /\
  (exists r, matchField badBotsList c = Ok r).
Proof.
  intros Hc Hbots. split; [|split].
  - intros b idx Hb Hidx.
    assert (Hin : idx + len b <= len c).
    { rewrite Forall_forall in Hbots.
      exact (hit_in_range _ _ _ Hc (Hbots b Hb) Hidx). }
    split; [exact Hin | now apply slice_in_range].
  - destruct (firstHit badBotsList c) as [[b idx]|] eqn:E.
    + rewrite (scanBots_hit _ _ _ _ E (firstHit_in_range _ _ _ _ Hc Hbots E)).
      eauto.
    + rewrite (scanBots_miss _ _ E). eauto.
  - unfold matchField, LoadBadBotsYAML.
    destruct (firstHit badBotsList c) as [[b idx]|] eqn:E.
    + rewrite (scanBots_hit _ _ _ _ E (firstHit_in_range _ _ _ _ Hc Hbots E)).
      cbn [bind]. destruct (negb (String.eqb b "")); eauto.
    + rewrite (scanBots_miss _ _ E). cbn. eauto.
Qed.


(** *** setSimple *)

(** C8: [setSimple] sets the browser name and version to its arguments,
    empties engine, engine version, os and localization, and sets the bot
    flag; it empties [mozilla] when the flag is false and keeps it when the
    flag is true; [ua], [platform] and [undecided] keep their values. *)
Theorem C8_setSimple_fields (name version : string) (b : bool) (p : UserAgent) :
  let p' := setSimple name version b p in
  Name (browser p') = name /\
  Version (browser p') = version /\
  Engine (browser p') = "" /\
  EngineVersion (browser p') = "" /\
  os p' = "" /\
  localization p' = "" /\
  bot p' = b /\
  mozilla p' = (if b then mozilla p else "") /\
  ua p' = ua p /\
  platform p' = platform p /\
  undecided p' = undecided p.
Proof. destruct b; cbn; repeat split. Qed.

(** C9: [setSimple] twice with the same arguments is [setSimple] once. *)
Theorem C9_setSimple_idempotent (name version : string) (b : bool)
  (p : UserAgent) :
  setSimple name version b (setSimple name version b p) =
  setSimple name version b p.
Proof. destruct b; reflexivity. Qed.

(** *** checkBot *)

Lemma checkSections_true (p p' : UserAgent) (sections : list section) :
  checkSections badBotsList p sections = Ok (true, p') ->
  exists name version, p' = setSimple name version true p.
Proof.
  induction sections as [|v rest IH]; cbn [checkSections]; [discriminate|].
  destruct (scanComments badBotsList (comment v)) as [[[n ver]|]|]; cbn [bind];
    [intros [= <-]; eauto | | discriminate].
  destruct (getFromSite (comment v)) as [site|]; cbn [bind]; [|discriminate].
  destruct (negb (String.eqb site "")).
  - destruct (strings.SplitN2 site "/") as [|r0 [|r1 [|r2 l]]];
      try discriminate; intros [= <-]; eauto.
  - destruct (isKnownBadBot badBotsList (name v)); [intros [= <-]; eauto|].
    exact IH.
Qed.

Lemma checkSections_false (p p' : UserAgent) (sections : list section) :
  checkSections badBotsList p sections = Ok (false, p') -> p' = p.
Proof.
  induction sections as [|v rest IH]; cbn [checkSections]; [now intros [= <-]|].
  destruct (scanComments badBotsList (comment v)) as [[[n ver]|]|]; cbn [bind];
    try discriminate.
  destruct (getFromSite (comment v)) as [site|]; cbn [bind]; [|discriminate].
  destruct (negb (String.eqb site "")).
  - destruct (strings.SplitN2 site "/") as [|r0 [|r1 [|r2 l]]]; discriminate.
  - destruct (isKnownBadBot badBotsList (name v)); [discriminate | exact IH].
Qed.

Lemma checkBot_true (p p' : UserAgent) (sections : list section) :
  checkBot badBotsList p sections = Ok (true, p') ->
  exists name version, p' = setSimple name version true p.
Proof.
  unfold checkBot.
  destruct sections as [|s0 [|s1 rest]]; try apply checkSections_true.
  destruct (negb (String.eqb (name s0) "Mozilla")); [|apply checkSections_true].
  destruct (isKnownBadBot badBotsList (name s0)); [intros [= <-]; eauto|].
  destruct (getFromSite (comment s0)) as [site|]; cbn [bind]; [|discriminate].
  destruct (negb (String.eqb site "")); [intros [= <-]; eauto | discriminate].
Qed.

(** C7: when [checkBot] returns false the record is the one it was given;
    so it is for the single section curl/7.68.0 without comment, when
    "curl" matches no identifier. *)
Theorem C7_false_leaves_record (p p' : UserAgent) (sections : list section) :
  (checkBot badBotsList p sections = Ok (false, p') -> p' = p) /\
  (isKnownBadBot badBotsList "curl" = false ->
   checkBot badBotsList p [mkSection "curl" "7.68.0" []] = Ok (false, p)).
Proof.
  split.
  - unfold checkBot.
    destruct sections as [|s0 [|s1 rest]]; try apply checkSections_false.
    destruct (negb (String.eqb (name s0) "Mozilla")); [|apply checkSections_false].
    destruct (isKnownBadBot badBotsList (name s0)); [discriminate|].
    destruct (getFromSite (comment s0)) as [site|]; cbn [bind]; [|discriminate].
    destruct (negb (String.eqb site "")); [discriminate | now intros [= <-]].
  - intros H. unfold checkBot. cbn [name version comment]. rewrite H.
    reflexivity.
Qed.

(** C2 (amended): for a single section whose name is not "Mozilla" and
    passes the containment check, [checkBot] returns true and finalizes the
    record as a bot with the section's name and the section's version. *)
Theorem C2_single_section_bad_bot (p : UserAgent) (s0 : section) :
  name s0 <> "Mozilla" ->
  isKnownBadBot badBotsList (name s0) = true ->
  checkBot badBotsList p [s0] =
    Ok (true, setSimple (name s0) (version s0) true p) /\
  Name (browser (setSimple (name s0) (version s0) true p)) = name s0 /\
  Version (browser (setSimple (name s0) (version s0) true p)) = version s0 /\
  bot (setSimple (name s0) (version s0) true p) = true.
Proof.
  intros Hm Hbad. unfold checkBot.
  destruct (String.eqb_spec (name s0) "Mozilla"); [contradiction|].
  cbn [negb]. rewrite Hbad. repeat split.
Qed.

(** C1 (amended): [setSimple], and with it every [checkBot] that returns
    true, empties engine, engine version, os and localization;
    [iMessagePreview], when it returns true, sets the bot flag and the name
    and empties engine and engine version, and leaves os and localization as
    they were. *)
Theorem C1_finalize_clears (p : UserAgent) :
  (forall name version b,
     let p' := setSimple name version b p in
     Engine (browser p') = "" /\ EngineVersion (browser p') = "" /\
     os p' = "" /\ localization p' = "") /\
  (forall sections p',
     checkBot badBotsList p sections = Ok (true, p') ->
     bot p' = true /\
     Engine (browser p') = "" /\ EngineVersion (browser p') = "" /\
     os p' = "" /\ localization p' = "") /\
  (forall p',
     iMessagePreview p = (true, p') ->
     bot p' = true /\ Name (browser p') = "iMessage-Preview" /\
     Engine (browser p') = "" /\ EngineVersion (browser p') = "" /\
     os p' = os p /\ localization p' = localization p).
Proof.
  split; [|split].
  - intros n v b. cbn. repeat split.
  - intros sections p' H.
    destruct (checkBot_true _ _ _ H) as (n & v & ->). cbn. repeat split.
  - intros p'. unfold iMessagePreview.
    destruct (negb (strings.Contains (ua p) "facebookexternalhit"));
      [discriminate|].
    destruct (negb (strings.Contains (ua p) "Twitterbot")); [discriminate|].
    intros [= <-]. cbn. repeat split.
Qed.


(** *** The general path of checkBot *)

Lemma scanComments_none (cs : list string) :
  Forall (fun c => matchField badBotsList c = Ok None) cs <->
  scanComments badBotsList cs = Ok None.
Proof.
  induction cs as [|c rest IH]; cbn [scanComments].
  - split; [reflexivity | constructor].
  - split.
    + intros H. inversion H as [|? ? Hc Hrest]; subst.
      rewrite Hc. cbn [bind]. now apply IH.
    + destruct (matchField badBotsList c) as [[found|]|] eqn:E; cbn [bind];
        try discriminate.
      intros H. constructor; [exact E | now apply IH].
Qed.

Lemma scanComments_first (cpre cpost : list string) (c : string)
  (found : string * string) :
  Forall (fun c' => matchField badBotsList c' = Ok None) cpre ->
  matchField badBotsList c = Ok (Some found) ->
  scanComments badBotsList (cpre ++ c :: cpost) = Ok (Some found).
Proof.
  intros Hpre Hc. induction Hpre as [|c' rest Hc' _ IH]; cbn [app scanComments].
  - now rewrite Hc.
  - rewrite Hc'. exact IH.
Qed.

(** The code's split of a site reference is the text before the first slash
    and the text after it. *)
Lemma SplitN2_site (site : string) :
  strings.SplitN2 site "/" =
    match afterFirst "/" site with
    | Some v => [beforeFirst "/" site; v]
    | None => [beforeFirst "/" site]
    end.
Proof.
  unfold strings.SplitN2. pose proof (Index_slash site) as H.
  destruct (strings.Index site "/") as [m|]; destruct H as [-> ->]; reflexivity.
Qed.

Lemma checkSections_skip (p : UserAgent) (pre rest : list section) :
  Forall (quiet badBotsList) pre ->
  checkSections badBotsList p (pre ++ rest) = checkSections badBotsList p rest.
Proof.
  intros H. induction H as [|v pre (Hf & Hs & Hn) _ IH]; [reflexivity|].
  cbn [app checkSections].
  apply scanComments_none in Hf. rewrite Hf, Hs. cbn. rewrite Hn. exact IH.
Qed.

Lemma checkSections_quiet (p p' : UserAgent) (sections : list section) :
  checkSections badBotsList p sections = Ok (false, p') ->
  Forall (quiet badBotsList) sections.
Proof.
  induction sections as [|v rest IH]; cbn [checkSections]; [constructor|].
  destruct (scanComments badBotsList (comment v)) as [[[n ver]|]|] eqn:Ec;
    cbn [bind]; try discriminate.
  destruct (getFromSite (comment v)) as [site|] eqn:Es; cbn [bind];
    [|discriminate].
  destruct (String.eqb_spec site "") as [->|]; cbn [negb].
  - destruct (isKnownBadBot badBotsList (name v)) eqn:En; [discriminate|].
    intros H. constructor; [|now apply IH].
    repeat split; [now apply scanComments_none | exact Es | exact En].
  - destruct (strings.SplitN2 site "/") as [|r0 [|r1 [|r2 l]]]; discriminate.
Qed.

Lemma checkBot_general (p : UserAgent) (sections : list section) :
  generalPath sections ->
  checkBot badBotsList p sections = checkSections badBotsList p sections.
Proof.
  intros [Hlen | (v & -> & Hv)]; unfold checkBot.
  - destruct sections as [|s0 [|s1 rest]]; try reflexivity. simpl in Hlen. lia.
  - rewrite Hv. reflexivity.
Qed.

(** C4: on the general path [checkBot] goes through the sections in order,
    past those that produce no match, and at the first section that produces
    one finalizes a bot and returns true: with the name and version of the
    first comment field that has a positional match; without such a field,
    with the site reference of [getFromSite] split at its first slash; and
    without a site reference, with the section's own name and version when
    the name passes the containment check.  It returns false when, and only
    when, no section produces a match. *)
Theorem C4_general_path (p : UserAgent) (sections : list section) :
  generalPath sections ->
  (forall pre v post cpre c cpost found,
     sections = pre ++ v :: post ->
     Forall (quiet badBotsList) pre ->
     comment v = cpre ++ c :: cpost ->
     Forall (fun c' => matchField badBotsList c' = Ok None) cpre ->
     matchField badBotsList c = Ok (Some found) ->
     checkBot badBotsList p sections =
       Ok (true, setSimple (fst found) (snd found) true p)) /\
  (forall pre v post site,
     sections = pre ++ v :: post ->
     Forall (quiet badBotsList) pre ->
     noFieldMatch badBotsList v ->
     getFromSite (comment v) = Ok site ->
     site <> "" ->
     checkBot badBotsList p sections =
       Ok (true,
           setSimple (beforeFirst "/" site)
             (match afterFirst "/" site with Some ver => ver | None => "" end)
             true p)) /\
  (forall pre v post,
     sections = pre ++ v :: post ->
     Forall (quiet badBotsList) pre ->
     noFieldMatch badBotsList v ->
     getFromSite (comment v) = Ok "" ->
     isKnownBadBot badBotsList (name v) = true ->
     checkBot badBotsList p sections =
       Ok (true, setSimple (name v) (version v) true p)) /\
  (Forall (quiet badBotsList) sections ->
   checkBot badBotsList p sections = Ok (false, p)) /\
  (forall p',
     checkBot badBotsList p sections = Ok (false, p') ->
     Forall (quiet badBotsList) sections).
Proof.
  intros Hgen. rewrite (checkBot_general p sections Hgen).
  split; [|split; [|split; [|split]]].
  - intros pre v post cpre c cpost [n ver] -> Hpre Hv Hcpre Hc.
    rewrite (checkSections_skip _ _ _ Hpre). cbn [checkSections].
    rewrite Hv, (scanComments_first _ _ _ _ Hcpre Hc). reflexivity.
  - intros pre v post site -> Hpre Hnf Hs Hne.
    rewrite (checkSections_skip _ _ _ Hpre). cbn [checkSections].
    apply scanComments_none in Hnf. rewrite Hnf, Hs. cbn [bind].
    destruct (String.eqb_spec site ""); [contradiction|]. cbn [negb].
    rewrite SplitN2_site. now destruct (afterFirst "/" site).
  - intros pre v post -> Hpre Hnf Hs Hn.
    rewrite (checkSections_skip _ _ _ Hpre). cbn [checkSections].
    apply scanComments_none in Hnf. rewrite Hnf, Hs. cbn. now rewrite Hn.
  - intros Hq. rewrite <- (app_nil_r sections).
    now rewrite (checkSections_skip _ _ _ Hq).
  - intros p'. apply checkSections_quiet.
Qed.


End BotFacts.

(** ** Concrete runs

    The inputs below are ASCII, so the Unicode tables are never consulted;
    [AsciiRuntime] stands in for them. *)

(** C1 as stated fails: on a header with both markers [iMessagePreview]
    returns true and the record keeps its os and its localization. *)
Lemma C1_counterexample :
  fst (iMessagePreview iMessageRecord) = true /\
  os (snd (iMessagePreview iMessageRecord)) = "Intel Mac OS X 10_11_1" /\
  localization (snd (iMessagePreview iMessageRecord)) = "en-US" /\
  os (snd (iMessagePreview iMessageRecord)) <> "" /\
  localization (snd (iMessagePreview iMessageRecord)) <> "".
Proof. vm_compute. repeat split; discriminate. Qed.

Lemma C1_witness :
  iMessagePreview iMessageRecord =
    (true, snd (iMessagePreview iMessageRecord)) /\
  Engine (browser (snd (iMessagePreview iMessageRecord))) = "" /\
  os (snd (iMessagePreview iMessageRecord)) = os iMessageRecord.
Proof.
  assert (H : iMessagePreview iMessageRecord =
              (true, snd (iMessagePreview iMessageRecord))) by reflexivity.
  split; [exact H|].
  pose proof (proj2 (proj2 (@C1_finalize_clears AsciiRuntime [] iMessageRecord))
                _ H) as (_ & _ & He & _ & Ho & _).
  split; [exact He | exact Ho].
Defined.

(** C2 as stated fails: the single section curl/7.68.0 with "curl" among the
    identifiers is finalized with version "7.68.0", not with an empty one. *)
Lemma C2_counterexample :
  name curlSection <> "Mozilla" /\
  isKnownBadBot (U := AsciiRuntime) ["curl"] (name curlSection) = true /\
  checkBot (U := AsciiRuntime) ["curl"] sampleRecord [curlSection] =
    Ok (true, setSimple "curl" "7.68.0" true sampleRecord) /\
  Version (browser (setSimple "curl" "7.68.0" true sampleRecord)) <> "".
Proof. vm_compute. repeat split; discriminate. Qed.

(** The same run under any Unicode tables. *)
Lemma checkBot_curl_any_runtime (U : GoUnicode) (p : UserAgent) :
  checkBot ["curl"] p [curlSection] = Ok (true, setSimple "curl" "7.68.0" true p).
Proof. reflexivity. Qed.

Lemma C2_witness :
  name curlSection <> "Mozilla" /\
  isKnownBadBot (U := AsciiRuntime) ["curl"] (name curlSection) = true /\
  checkBot (U := AsciiRuntime) ["curl"] sampleRecord [curlSection] =
    Ok (true, setSimple "curl" "7.68.0" true sampleRecord).
Proof.
  assert (H1 : name curlSection <> "Mozilla") by (simpl; discriminate).
  assert (H2 : isKnownBadBot (U := AsciiRuntime) ["curl"] (name curlSection)
               = true) by reflexivity.
  split; [exact H1 | split; [exact H2|]].
  exact (proj1 (@C2_single_section_bad_bot AsciiRuntime ["curl"] sampleRecord
                  curlSection H1 H2)).
Defined.

(** C3 as stated fails twice, on ASCII text.  With the identifier "java/1."
    the field "Java/1.8.0_151" gets the version "1.8.0_151", read from the
    match onwards, while the text after the match, "8.0_151", has no slash
    and so no version.  With an empty identifier ahead of "xbot" the scan
    stops at the empty one and the field "xbot/1" has no match at all. *)
Lemma C3_counterexample :
  (strings.isASCII "Java/1.8.0_151" = true /\
   asciiHit ["java/1."] "Java/1.8.0_151" = Some ("java/1.", 0) /\
   matchField (U := AsciiRuntime) ["java/1."] "Java/1.8.0_151"
     = Ok (Some ("Java/1.", "1.8.0_151")) /\
   versionFrom (drop (0 + len "java/1.") "Java/1.8.0_151") = "") /\
  (strings.isASCII "xbot/1" = true /\
   asciiHit [""; "xbot"] "xbot/1" = Some ("", 0) /\
   matchField (U := AsciiRuntime) [""; "xbot"] "xbot/1" = Ok None).
Proof. vm_compute. repeat split. Qed.

Lemma matchField_java_any_runtime (U : GoUnicode) :
  matchField ["java/1."] "Java/1.8.0_151" = Ok (Some ("Java/1.", "1.8.0_151")).
Proof. reflexivity. Qed.

(** The examples of the specification. *)
Lemma matchField_examples (U : GoUnicode) :
  matchField ["gptbot"] "GPTBot/1.1" = Ok (Some ("GPTBot", "1.1")) /\
  matchField ["xbot"] "xbot/1.2.3;foo" = Ok (Some ("xbot", "1.2.3")) /\
  matchField ["xbot"] "xbot/2.0 extra" = Ok (Some ("xbot", "2.0")) /\
  matchField ["xbot"] "xbot" = Ok (Some ("xbot", "")).
Proof. repeat split. Qed.

Lemma C3_witness :
  strings.isASCII "GPTBot/1.1" = true /\
  Forall (fun b => strings.isASCII b = true) ["gptbot"] /\
  asciiHit ["gptbot"] "GPTBot/1.1" = Some ("gptbot", 0) /\
  "gptbot" <> "" /\
  matchField (U := AsciiRuntime) ["gptbot"] "GPTBot/1.1"
    = Ok (Some ("GPTBot", "1.1")).
Proof.
  assert (H0 : strings.isASCII "GPTBot/1.1" = true) by reflexivity.
  assert (Hb : Forall (fun b => strings.isASCII b = true) ["gptbot"])
    by (constructor; [reflexivity | constructor]).
  assert (H1 : asciiHit ["gptbot"] "GPTBot/1.1" = Some ("gptbot", 0))
    by reflexivity.
  assert (H2 : "gptbot" <> "") by discriminate.
  split; [exact H0 | split; [exact Hb | split; [exact H1 | split; [exact H2|]]]].
  exact (proj1 (proj1 (@C3_positional_match AsciiRuntime ["gptbot"]
                         "GPTBot/1.1") "gptbot" 0 H0 Hb H1 H2)).
Defined.

Lemma C4_witness :
  generalPath [gptSection] /\
  checkBot (U := AsciiRuntime) ["gptbot"] sampleRecord [gptSection] =
    Ok (true, setSimple "GPTBot" "1.0" true sampleRecord).
Proof.
  assert (Hg : generalPath [gptSection]).
  { right. exists gptSection. split; reflexivity. }
  split; [exact Hg|].
  refine (proj1 (@C4_general_path AsciiRuntime ["gptbot"] sampleRecord
                   [gptSection] Hg)
            [] gptSection [] ["compatible"] "GPTBot/1.0"
            [";+https://openai.com/gptbot"] ("GPTBot", "1.0") _ _ _ _ _).
  - reflexivity.
  - constructor.
  - reflexivity.
  - constructor; [reflexivity | constructor].
  - reflexivity.
Defined.

(** C5 as stated fails: the pattern matches the field [twoSites] twice, and
    [getFromSite] returns the first match. *)
Lemma C5_counterexample :
  nth_error [twoSites] (siteIndex (length [twoSites])) = Some twoSites /\
  regexp.countMatches botFromSiteRegexp twoSites = 2 /\
  getFromSite (U := AsciiRuntime) [twoSites] = Ok "http://a.b" /\
  "http://a.b" <> "".
Proof. vm_compute. repeat split. discriminate. Qed.

Lemma getFromSite_twoSites_any_runtime (U : GoUnicode) :
  getFromSite [twoSites] = Ok "http://a.b".
Proof. reflexivity. Qed.

Lemma C5_witness :
  nth_error googlebotComment (siteIndex (length googlebotComment))
    = Some "+http://www.google.com/bot.html" /\
  exists r,
    getFromSite (U := AsciiRuntime) googlebotComment = Ok r /\
    (r <> "" ->
     1 <= regexp.countMatches botFromSiteRegexp "+http://www.google.com/bot.html").
Proof.
  assert (H : nth_error googlebotComment (siteIndex (length googlebotComment))
              = Some "+http://www.google.com/bot.html") by reflexivity.
  split; [exact H|].
  destruct (@C5_getFromSite_match AsciiRuntime googlebotComment _ H)
    as (r & Hr & Hne & _).
  exists r. split; [exact Hr | exact Hne].
Defined.

Lemma C6_witness : inspects (U := AsciiRuntime) googlebotComment 2.
Proof.
  apply (proj2 (proj2 (proj2 (@C6_getFromSite_index AsciiRuntime
                                googlebotComment)))).
  left. reflexivity.
Defined.

Lemma C7_witness :
  isKnownBadBot (U := AsciiRuntime) ["gptbot"] "curl" = false /\
  checkBot (U := AsciiRuntime) ["gptbot"] sampleRecord [curlSection] =
    Ok (false, sampleRecord).
Proof.
  assert (H : isKnownBadBot (U := AsciiRuntime) ["gptbot"] "curl" = false)
    by reflexivity.
  split; [exact H|].
  exact (proj2 (@C7_false_leaves_record AsciiRuntime ["gptbot"] sampleRecord
                  sampleRecord [curlSection]) H).
Defined.

Lemma C10_witness :
  strings.isASCII "GPTBot/1.1" = true /\
  Forall (fun b => strings.isASCII b = true) ["gptbot"] /\
  slice "GPTBot/1.1" 0 (0 + len "gptbot") = Ok "GPTBot".
Proof.
  assert (Hc : strings.isASCII "GPTBot/1.1" = true) by reflexivity.
  assert (Hb : Forall (fun b => strings.isASCII b = true) ["gptbot"]).
  { constructor; [reflexivity | constructor]. }
  split; [exact Hc | split; [exact Hb|]].
  destruct (proj1 (@C10_slice_in_bounds AsciiRuntime ["gptbot"] "GPTBot/1.1"
                     Hc Hb) "gptbot" 0) as (_ & Hs & _).
  - left. reflexivity.
  - reflexivity.
  - exact Hs.
Defined.

(** * Further properties of bot.go *)

(** ** The detectors and the mutators of the record *)

Section RecordFacts.

(** [googleOrBingBot] returns the undecided flag it leaves in the record:
    true when the header has "Google" or "bingbot", or when the flag was set
    before.  It empties the platform exactly when the header has one of the
    two words, changes no other field, and a second call changes nothing more
    and returns the same. *)
Theorem X_googleOrBingBot (p : UserAgent) :
  let hit := strings.Contains (ua p) "Google"
             || strings.Contains (ua p) "bingbot" in
  let r := fst (googleOrBingBot p) in
  let p' := snd (googleOrBingBot p) in
  r = (hit || undecided p) /\
  undecided p' = r /\
  platform p' = (if hit then "" else platform p) /\
  ua p' = ua p /\ mozilla p' = mozilla p /\ os p' = os p /\
  localization p' = localization p /\ bot p' = bot p /\
  browser p' = browser p /\
  googleOrBingBot p' = (r, p').
Proof.
  unfold googleOrBingBot.
  destruct (strings.Contains (ua p) "Google" || strings.Contains (ua p) "bingbot")
    eqn:E; cbn.
  - rewrite E. cbn. repeat split.
  - rewrite E. destruct p; cbn. repeat split.
Qed.

(** [iMessagePreview] returns true exactly when the header has both
    "facebookexternalhit" and "Twitterbot".  Then it sets the bot flag and
    the name and empties the engine and its version; otherwise it changes
    nothing.  It never changes the browser version, [ua], [mozilla],
    [platform], [os], [localization] or [undecided], and a second call
    changes nothing more and returns the same. *)
Theorem X_iMessagePreview (p : UserAgent) :
  let r := fst (iMessagePreview p) in
  let p' := snd (iMessagePreview p) in
  r = (strings.Contains (ua p) "facebookexternalhit"
       && strings.Contains (ua p) "Twitterbot") /\
  bot p' = (r || bot p) /\
  Name (browser p') = (if r then "iMessage-Preview" else Name (browser p)) /\
  Engine (browser p') = (if r then "" else Engine (browser p)) /\
  EngineVersion (browser p') = (if r then "" else EngineVersion (browser p)) /\
  Version (browser p') = Version (browser p) /\
  ua p' = ua p /\ mozilla p' = mozilla p /\ platform p' = platform p /\
  os p' = os p /\ localization p' = localization p /\
  undecided p' = undecided p /\
  iMessagePreview p' = (r, p').
Proof.
  unfold iMessagePreview.
  destruct (strings.Contains (ua p) "facebookexternalhit") eqn:E1; cbn.
  - destruct (strings.Contains (ua p) "Twitterbot") eqn:E2; cbn.
    + rewrite E1, E2. cbn. repeat split.
    + rewrite E1, E2. cbn. repeat split.
  - rewrite E1. cbn. repeat split.
Qed.

(** [fixOther] does nothing on an empty section list and looks at no section
    but the first.  It changes the browser name, the browser version and
    [mozilla] only, a second call changes nothing more, and after a
    [setSimple] for a browser it leaves the record [setSimple] would have
    made with the first section's name and version. *)
Theorem X_fixOther (s0 : section) (rest : list section) (p : UserAgent) :
  let p' := fixOther (s0 :: rest) p in
  fixOther [] p = p /\
  p' = fixOther [s0] p /\
  fixOther (s0 :: rest) p' = p' /\
  Engine (browser p') = Engine (browser p) /\
  EngineVersion (browser p') = EngineVersion (browser p) /\
  ua p' = ua p /\ platform p' = platform p /\ os p' = os p /\
  localization p' = localization p /\ bot p' = bot p /\
  undecided p' = undecided p /\
  (forall n v,
     fixOther (s0 :: rest) (setSimple n v false p) =
     setSimple (name s0) (version s0) false p).
Proof. cbn. repeat split. Qed.

(** Of two [setSimple] in a row the second decides every field, except that
    [mozilla], once emptied by a first call for a browser, stays empty under
    a second call for a bot. *)
Theorem X_setSimple_twice (n1 v1 n2 v2 : string) (b1 b2 : bool) (p : UserAgent) :
  (b1 = true \/ b2 = false ->
   setSimple n2 v2 b2 (setSimple n1 v1 b1 p) = setSimple n2 v2 b2 p) /\
  (b1 = false -> b2 = true ->
   setSimple n2 v2 b2 (setSimple n1 v1 b1 p) =
   mkUserAgent (ua p) "" (platform p) "" "" true (undecided p)
     (mkBrowser n2 v2 "" "")).
Proof.
  split.
  - intros [H | H]; destruct b1, b2; try discriminate; reflexivity.
  - intros -> ->. reflexivity.
Qed.

Lemma calls_after_once (files : list (option (list string))) (g : badBotsVars) :
  onceDone g = true ->
  LoadBadBotsYAML_calls files g = repeat (varBadBotsList g) (length files).
Proof.
  intros Hd. induction files as [|file later IH]; [reflexivity|].
  cbn [LoadBadBotsYAML_calls LoadBadBotsYAML_call length repeat].
  rewrite Hd. cbn. now rewrite IH.
Qed.

(** Every call of [LoadBadBotsYAML] returns what the first call's attempt to
    read the file gave, whatever the file holds later: the list read then,
    or no identifier at all when that first attempt failed; the file is not
    read again. *)
Theorem X_LoadBadBotsYAML_once (file : option (list string))
  (later : list (option (list string))) :
  LoadBadBotsYAML_calls (file :: later) initialVars =
  repeat (match file with Some list => list | None => [] end)
    (S (length later)).
Proof.
  cbn [LoadBadBotsYAML_calls LoadBadBotsYAML_call initialVars onceDone
       varBadBotsList repeat].
  f_equal. now rewrite calls_after_once.
Qed.

End RecordFacts.

(** ** The containment check and the positional scan *)

Section MatchFacts.

Context {U : GoUnicode}.
Variable badBotsList : list string.

Lemma Contains_spec (s sub : string) :
  strings.Contains s sub = true <-> substringOf sub s.
Proof.
  unfold strings.Contains, substringOf.
  destruct (strings.Index s sub) as [i|] eqn:E; split; intros H.
  - apply Index_Some in E as [Hp _]. apply HasPrefix_split in Hp.
    exists (take i s), (drop (len sub) (drop i s)).
    now rewrite <- Hp, take_drop.
  - reflexivity.
  - discriminate.
  - destruct H as (pre & post & H). now apply (Index_None _ _ E) in H.
Qed.

Lemma containsAny_spec (s : string) (bots : list string) :
  containsAny s bots = true <->
  exists b, In b bots /\
            strings.Contains (strings.ToLower s) (strings.ToLower b) = true.
Proof.
  induction bots as [|b0 rest IH]; cbn [containsAny].
  - split; [discriminate | now intros (b & [] & _)].
  - destruct (strings.Contains (strings.ToLower s) (strings.ToLower b0)) eqn:E.
    + split; [|reflexivity]. intros _. exists b0. split; [now left | exact E].
    + rewrite IH. split; intros (b & Hb & Hc).
      * exists b. split; [now right | exact Hc].
      * destruct Hb as [<- | Hb]; [congruence | now exists b].
Qed.

(** [isKnownBadBot] says whether some identifier of the list, lower-cased,
    stands somewhere in the lower-cased text. *)
Theorem X_isKnownBadBot_substring (s : string) :
  isKnownBadBot badBotsList s = true <->
  exists b, In b badBotsList /\
            substringOf (strings.ToLower b) (strings.ToLower s).
Proof.
  unfold isKnownBadBot, LoadBadBotsYAML. rewrite containsAny_spec.
  split; intros (b & Hb & H); exists b; (split; [exact Hb|]);
    now apply Contains_spec.
Qed.

(** The answer of [isKnownBadBot] depends on which identifiers the list
    holds, not on their order or on repetitions. *)
Theorem X_isKnownBadBot_order (bots bots' : list string) (s : string) :
  (forall b, In b bots <-> In b bots') ->
  isKnownBadBot bots s = isKnownBadBot bots' s.
Proof.
  intros H. unfold isKnownBadBot, LoadBadBotsYAML.
  destruct (containsAny s bots) eqn:E1, (containsAny s bots') eqn:E2;
    try reflexivity; exfalso.
  - apply containsAny_spec in E1 as (b & Hb & Hc).
    assert (containsAny s bots' = true) by
      (apply containsAny_spec; exists b; split; [now apply H | exact Hc]).
    congruence.
  - apply containsAny_spec in E2 as (b & Hb & Hc).
    assert (containsAny s bots = true) by
      (apply containsAny_spec; exists b; split; [now apply H | exact Hc]).
    congruence.
Qed.

Lemma containsAny_empty_identifier (s : string) (bots : list string) :
  In "" bots -> containsAny s bots = true.
Proof.
  intros H. apply containsAny_spec. exists "". split; [exact H|].
  apply Contains_spec. exists "", (strings.ToLower s). reflexivity.
Qed.

(** The scan stops at an identifier of the list that occurs where it says. *)
Lemma firstHit_Some (bots : list string) (c b : string) (idx : nat) :
  firstHit bots c = Some (b, idx) ->
  In b bots /\
  strings.Index (strings.ToLower c) (strings.ToLower b) = Some idx.
Proof.
  induction bots as [|b0 rest IH]; cbn [firstHit]; [discriminate|].
  destruct (strings.Index (strings.ToLower c) (strings.ToLower b0)) eqn:E.
  - intros [= <- <-]. split; [now left | exact E].
  - intros H. destruct (IH H). split; [now right | assumption].
Qed.

Lemma firstHit_containsAny (bots : list string) (c : string) :
  containsAny c bots = match firstHit bots c with Some _ => true | None => false end.
Proof.
  induction bots as [|b0 rest IH]; cbn [containsAny firstHit]; [reflexivity|].
  unfold strings.Contains.
  destruct (strings.Index (strings.ToLower c) (strings.ToLower b0));
    [reflexivity | exact IH].
Qed.

Lemma slice_Ok (c : string) (i j : nat) (r : string) :
  slice c i j = Ok r -> i <= j /\ j <= len c.
Proof.
  unfold slice.
  destruct (Nat.leb_spec i j); destruct (Nat.leb_spec j (len c)); cbn;
    try discriminate.
  now split.
Qed.

(** What a match of [matchField] comes from. *)
Lemma matchField_Some (c n v : string) :
  matchField badBotsList c = Ok (Some (n, v)) ->
  exists b idx,
    firstHit badBotsList c = Some (b, idx) /\ b <> "" /\
    idx + len b <= len c /\
    n = take (len b) (drop idx c) /\ v = versionFrom (drop idx c).
Proof.
  unfold matchField, LoadBadBotsYAML. intros H.
  assert (Hin : forall b idx, firstHit badBotsList c = Some (b, idx) ->
                              idx + len b <= len c).
  { intros b idx Hhit. revert H. clear - Hhit.
    induction badBotsList as [|b0 rest IH]; [discriminate|].
    cbn [firstHit scanBots] in *.
    destruct (strings.Index (strings.ToLower c) (strings.ToLower b0)) as [i|].
    - injection Hhit as <- <-.
      destruct (slice c i (i + len b0)) as [o|] eqn:Es; [|discriminate].
      intros _. now apply slice_Ok in Es.
    - now apply IH. }
  destruct (firstHit badBotsList c) as [[b idx]|] eqn:E.
  - specialize (Hin b idx eq_refl).
    rewrite (scanBots_hit _ _ _ _ E Hin) in H. cbn [bind] in H.
    destruct (String.eqb_spec b "") as [->|Hb]; cbn [negb] in H; [discriminate|].
    exists b, idx. repeat split; try assumption;
      destruct (String.eqb_spec (take (len b) (drop idx c)) "") as [Et|];
      try congruence; exfalso; revert Et; apply take_nonempty;
      try (rewrite len_drop); destruct b; try contradiction; simpl in *; lia.
  - rewrite (scanBots_miss _ _ E) in H. discriminate.
Qed.

Lemma lowerASCII_take (n : nat) (s : string) :
  strings.lowerASCII (take n s) = take n (strings.lowerASCII s).
Proof.
  revert s; induction n as [|n IH]; intros [|a t]; simpl; try reflexivity.
  now rewrite IH.
Qed.

Lemma lowerASCII_drop (n : nat) (s : string) :
  strings.lowerASCII (drop n s) = drop n (strings.lowerASCII s).
Proof.
  revert s; induction n as [|n IH]; intros [|a t]; simpl; try reflexivity.
  apply IH.
Qed.

Lemma tokenEnd_versionChar (v : string) :
  regexp.allChars versionChar (take (tokenEnd v) v) = true.
Proof.
  induction v as [|a t IH]; [reflexivity|]. simpl.
  destruct (Ascii.eqb a " " || Ascii.eqb a ";") eqn:E; [reflexivity|].
  simpl. unfold versionChar at 1. now rewrite E, IH.
Qed.

Lemma versionFrom_versionChar (s : string) :
  regexp.allChars versionChar (versionFrom s) = true.
Proof.
  unfold versionFrom. destruct (afterFirst "/" s); [|reflexivity].
  apply tokenEnd_versionChar.
Qed.

Lemma matchField_hit (c b : string) (idx : nat) :
  firstHit badBotsList c = Some (b, idx) ->
  b <> "" -> idx + len b <= len c ->
  matchField badBotsList c =
    Ok (Some (take (len b) (drop idx c), versionFrom (drop idx c))).
Proof.
  intros Hhit Hb Hin. unfold matchField, LoadBadBotsYAML.
  rewrite (scanBots_hit _ _ _ _ Hhit Hin). cbn [bind].
  destruct (String.eqb_spec b ""); [contradiction|]. cbn [negb].
  destruct (String.eqb_spec (take (len b) (drop idx c)) "") as [E|]; [|reflexivity].
  exfalso. revert E. apply take_nonempty.
  - destruct b; [contradiction | simpl; lia].
  - rewrite len_drop. destruct b; [contradiction | simpl in *; lia].
Qed.

(** A comment field with a positional match passes the containment check;
    and an ASCII field that passes the containment check has a positional
    match, when the identifiers are ASCII and none of them is empty. *)
Theorem X_scan_and_containment (c : string) :
  (forall n v,
     matchField badBotsList c = Ok (Some (n, v)) ->
     isKnownBadBot badBotsList c = true) /\
  (isKnownBadBot badBotsList c = true ->
   ~ In "" badBotsList ->
   strings.isASCII c = true -> asciiList badBotsList ->
   exists n v, matchField badBotsList c = Ok (Some (n, v))).
Proof.
  unfold isKnownBadBot, LoadBadBotsYAML. rewrite firstHit_containsAny. split.
  - intros n v H. apply matchField_Some in H as (b & idx & -> & _).
    reflexivity.
  - intros H Hne Hc Hb.
    destruct (firstHit badBotsList c) as [[b idx]|] eqn:E; [|discriminate].
    assert (b <> "").
    { intros ->. apply Hne. now apply firstHit_Some in E. }
    eexists _, _. apply (matchField_hit _ _ _ E); [assumption|].
    exact (firstHit_in_range _ _ _ _ Hc Hb E).
Qed.

(** The name of a positional match is a piece of the field as long as some
    non-empty identifier of the list, equal to that identifier up to the case
    of ASCII letters when field and identifier are ASCII; the version has no
    space and no semicolon. *)
Theorem X_match_name_version (c n v : string) :
  matchField badBotsList c = Ok (Some (n, v)) ->
  exists b,
    In b badBotsList /\ b <> "" /\
    len n = len b /\
    substringOf n c /\
    regexp.allChars versionChar v = true /\
    (strings.isASCII c = true -> strings.isASCII b = true ->
     strings.lowerASCII n = strings.lowerASCII b).
Proof.
  intros H. apply matchField_Some in H as (b & idx & Hhit & Hb & Hin & -> & ->).
  apply firstHit_Some in Hhit as [Hmem Hidx].
  exists b. repeat split; try assumption.
  - rewrite len_take, len_drop. lia.
  - exists (take idx c), (drop (len b) (drop idx c)).
    now rewrite !take_drop.
  - apply versionFrom_versionChar.
  - intros Hc Hb'.
    rewrite (ToLower_ASCII _ Hc), (ToLower_ASCII _ Hb') in Hidx.
    apply Index_Some in Hidx as [Hp _]. apply HasPrefix_split in Hp.
    rewrite lowerASCII_take, lowerASCII_drop, Hp.
    rewrite <- (len_lowerASCII b). apply take_append.
Qed.

Lemma matchField_ascii (c : string) :
  strings.isASCII c = true -> asciiList badBotsList ->
  exists r, matchField badBotsList c = Ok r.
Proof.
  intros Hc Hb. unfold matchField, LoadBadBotsYAML.
  destruct (firstHit badBotsList c) as [[b idx]|] eqn:E.
  - rewrite (scanBots_hit _ _ _ _ E (firstHit_in_range _ _ _ _ Hc Hb E)).
    cbn [bind]. destruct (negb (String.eqb b "")); eauto.
  - rewrite (scanBots_miss _ _ E). cbn. eauto.
Qed.

Lemma scanComments_ascii (cs : list string) :
  asciiList cs -> asciiList badBotsList ->
  exists r, scanComments badBotsList cs = Ok r.
Proof.
  intros Hcs Hb. induction Hcs as [|c rest Hc _ IH]; cbn [scanComments]; [eauto|].
  destruct (matchField_ascii c Hc Hb) as ([found|] & ->); cbn [bind]; eauto.
Qed.

(** The outcome of the steps that follow the scan of the comment fields. *)
Lemma afterScan_Ok (p : UserAgent) (site : string) :
  exists r p',
    match strings.SplitN2 site "/" with
    | [r0; r1] => Ok (true, setSimple r0 r1 true p)
    | r0 :: _ => Ok (true, setSimple r0 "" true p)
    | [] => Panic
    end = Ok (r, p').
Proof.
  rewrite SplitN2_site. destruct (afterFirst "/" site); eauto.
Qed.

Lemma checkSections_ascii (p : UserAgent) (sections : list section) :
  asciiList badBotsList -> asciiFields sections ->
  exists r p', checkSections badBotsList p sections = Ok (r, p').
Proof.
  intros Hb Hs. induction Hs as [|v rest Hv _ IH]; cbn [checkSections]; [eauto|].
  destruct (scanComments_ascii _ Hv Hb) as ([[n ver]|] & ->); cbn [bind];
    [eauto|].
  destruct (getFromSite_total (comment v)) as (site & ->). cbn [bind].
  destruct (negb (String.eqb site "")); [apply afterScan_Ok|].
  destruct (isKnownBadBot badBotsList (name v)); eauto.
Qed.

(** [checkBot] does not panic when the identifiers and the comment fields of
    the sections are ASCII. *)
Theorem X_checkBot_ascii_returns (p : UserAgent) (sections : list section) :
  asciiList badBotsList -> asciiFields sections ->
  exists r p', checkBot badBotsList p sections = Ok (r, p').
Proof.
  intros Hb Hs. unfold checkBot.
  destruct sections as [|s0 [|s1 rest]]; try now apply checkSections_ascii.
  destruct (negb (String.eqb (name s0) "Mozilla"));
    [|now apply checkSections_ascii].
  destruct (isKnownBadBot badBotsList (name s0)); [eauto|].
  destruct (getFromSite_total (comment s0)) as (site & ->). cbn [bind].
  destruct (negb (String.eqb site "")); eauto.
Qed.

(** For a single section not named "Mozilla", [checkBot] never panics and
    decides by the section's name and by the site reference alone: it
    returns true, with the section's name and version, exactly when the name
    passes the containment check or [getFromSite] finds a site reference.
    The comment fields are not scanned for identifiers. *)
Theorem X_single_section (p : UserAgent) (s0 : section) :
  name s0 <> "Mozilla" ->
  exists site,
    getFromSite (comment s0) = Ok site /\
    checkBot badBotsList p [s0] =
      Ok (if isKnownBadBot badBotsList (name s0) || negb (String.eqb site "")
          then (true, setSimple (name s0) (version s0) true p)
          else (false, p)).
Proof.
  intros Hm. destruct (getFromSite_total (comment s0)) as (site & Hs).
  exists site. split; [exact Hs|]. unfold checkBot.
  destruct (String.eqb_spec (name s0) "Mozilla"); [contradiction|]. cbn [negb].
  destruct (isKnownBadBot badBotsList (name s0)); [reflexivity|].
  rewrite Hs. cbn [bind orb]. now destruct (negb (String.eqb site "")).
Qed.


(** An empty identifier in the list makes every text a known bad bot, and
    then [checkBot], when it returns, returns true for every section list
    that is not empty. *)
Theorem X_empty_identifier :
  In "" badBotsList ->
  (forall s, isKnownBadBot badBotsList s = true) /\
  (forall p sections r p',
     sections <> [] ->
     checkBot badBotsList p sections = Ok (r, p') -> r = true).
Proof.
  intros Hin.
  assert (Hall : forall s, isKnownBadBot badBotsList s = true).
  { intros s. now apply containsAny_empty_identifier. }
  split; [exact Hall|].
  assert (Hsec : forall p v rest r p',
             checkSections badBotsList p (v :: rest) = Ok (r, p') -> r = true).
  { intros p v rest r p'. cbn [checkSections].
    destruct (scanComments badBotsList (comment v)) as [[[n ver]|]|];
      cbn [bind]; [now intros [= <- _] | | discriminate].
    destruct (getFromSite (comment v)) as [site|]; cbn [bind]; [|discriminate].
    destruct (negb (String.eqb site "")).
    - rewrite SplitN2_site. destruct (afterFirst "/" site); now intros [= <- _].
    - rewrite Hall. now intros [= <- _]. }
  intros p sections r p' Hne. unfold checkBot.
  destruct sections as [|s0 [|s1 rest]]; [congruence | | apply Hsec].
  destruct (negb (String.eqb (name s0) "Mozilla")); [|apply Hsec].
  rewrite Hall. now intros [= <- _].
Qed.

Lemma scanComments_no_identifier (cs : list string) :
  scanComments [] cs = Ok None.
Proof. induction cs as [|c rest IH]; [reflexivity | exact IH]. Qed.

Lemma checkSections_no_identifier (p : UserAgent) (sections : list section) :
  exists r p',
    checkSections [] p sections = Ok (r, p') /\
    (r = false <->
     Forall (fun v => getFromSite (comment v) = Ok "") sections).
Proof.
  induction sections as [|v rest IH]; cbn [checkSections].
  - exists false, p. repeat split; constructor.
  - rewrite scanComments_no_identifier. cbn [bind].
    destruct (getFromSite_total (comment v)) as (site & Hs). rewrite Hs.
    cbn [bind]. destruct (String.eqb_spec site "") as [->|Hne]; cbn [negb].
    + cbn. destruct IH as (r & p' & -> & Hiff). exists r, p'.
      split; [reflexivity|]. rewrite Hiff. split.
      * intros H. now constructor.
      * intros H. now inversion H.
    + rewrite SplitN2_site.
      assert (~ Forall (fun v0 => getFromSite (comment v0) = Ok "") (v :: rest)).
      { intros H. inversion H as [|? ? H1 _]; subst. congruence. }
      destruct (afterFirst "/" site); eexists _, _;
        (split; [reflexivity|]); split; intros; (discriminate || contradiction).
Qed.

(** Without any identifier, as after a failed load, [checkBot] never panics
    and returns false exactly when [getFromSite] finds no site reference in
    any section. *)
Theorem X_no_identifier (p : UserAgent) (sections : list section) :
  exists r p',
    checkBot [] p sections = Ok (r, p') /\
    (r = false <->
     Forall (fun v => getFromSite (comment v) = Ok "") sections).
Proof.
  unfold checkBot.
  destruct sections as [|s0 [|s1 rest]];
    try apply checkSections_no_identifier.
  destruct (negb (String.eqb (name s0) "Mozilla"));
    [|apply checkSections_no_identifier].
  cbn. destruct (getFromSite_total (comment s0)) as (site & Hs). rewrite Hs.
  cbn [bind]. destruct (String.eqb_spec site "") as [->|Hne]; cbn [negb].
  - exists false, p. repeat split. now constructor.
  - eexists _, _. split; [reflexivity|]. split; [discriminate|].
    intros H. inversion H; subst. congruence.
Qed.

(** On the general path, a section with one or two comment fields whose
    first field holds a site reference, reached without an earlier match,
    makes [checkBot] finalize a bot named after the scheme: the match is cut
    at its first slash, so the name is "http:" or "https:" and the version
    is the rest of the reference from its second slash on. *)
Theorem X_site_reference_name (p : UserAgent) (sections pre post : list section)
  (v : section) (field : string) :
  generalPath sections ->
  sections = pre ++ v :: post ->
  Forall (quiet badBotsList) pre ->
  noFieldMatch badBotsList v ->
  length (comment v) < 3 ->
  nth_error (comment v) 0 = Some field ->
  Matches botFromSiteRegexp field ->
  exists scheme rest,
    (scheme = "http:" \/ scheme = "https:") /\
    substringOf (scheme +++ "//" +++ rest) field /\
    checkBot badBotsList p sections =
      Ok (true, setSimple scheme ("/" +++ rest) true p).
Proof.
  intros Hgen -> Hpre Hnf Hlen Hfield Hm.
  rewrite (checkBot_general _ _ _ Hgen), (checkSections_skip _ _ _ _ Hpre).
  cbn [checkSections]. apply scanComments_none in Hnf. rewrite Hnf. cbn [bind].
  assert (Hne : comment v <> []) by (intros E; rewrite E in Hfield; discriminate).
  destruct (getFromSite_fields (comment v) Hne) as (f & prev & Hf & _ & Hg).
  cbv zeta in Hf, Hg.
  assert (Hidx : siteIndex (length (comment v)) = 0).
  { unfold siteIndex. destruct (Nat.ltb_spec (length (comment v)) 3); [reflexivity | lia]. }
  rewrite Hidx in Hf, Hg. rewrite Hfield in Hf. injection Hf as <-.
  apply find_Matches in Hm as (i & m & Hfind). rewrite Hfind in Hg.
  cbn [Nat.eqb] in Hg. rewrite Hg. cbn [bind].
  apply find_sound in Hfind as (_ & Hsub & Hlang).
  apply botFromSite_shape in Hlang
    as (s & host & word & -> & [-> | ->] & _).
  - exists "http:", (host +++ "." +++ word).
    split; [now left|]. split; [|reflexivity].
    now exists (take i field), (drop (i + len ("http" +++ "" +++ "://" +++ host +++ "." +++ word)) field).
  - exists "https:", (host +++ "." +++ word).
    split; [now right|]. split; [|reflexivity].
    now exists (take i field), (drop (i + len ("http" +++ "s" +++ "://" +++ host +++ "." +++ word)) field).
Qed.


(** [checkBot] on two records: the same decision, and on a match the same
    name and version handed to [setSimple]. *)
Lemma checkSections_records (p q : UserAgent) (sections : list section)
  (r : bool) (p' : UserAgent) :
  checkSections badBotsList p sections = Ok (r, p') ->
  (r = false /\ p' = p /\ checkSections badBotsList q sections = Ok (false, q)) \/
  (exists n v,
     r = true /\ p' = setSimple n v true p /\
     checkSections badBotsList q sections = Ok (true, setSimple n v true q)).
Proof.
  induction sections as [|v rest IH]; cbn [checkSections].
  - intros [= <- <-]. left. auto.
  - destruct (scanComments badBotsList (comment v)) as [[[n ver]|]|];
      cbn [bind]; [intros [= <- <-]; right; eauto | | discriminate].
    destruct (getFromSite (comment v)) as [site|]; cbn [bind]; [|discriminate].
    destruct (negb (String.eqb site "")).
    + rewrite SplitN2_site.
      destruct (afterFirst "/" site); intros [= <- <-]; right; eauto.
    + destruct (isKnownBadBot badBotsList (name v));
        [intros [= <- <-]; right; eauto | exact IH].
Qed.

Lemma checkBot_records (p q : UserAgent) (sections : list section)
  (r : bool) (p' : UserAgent) :
  checkBot badBotsList p sections = Ok (r, p') ->
  (r = false /\ p' = p /\ checkBot badBotsList q sections = Ok (false, q)) \/
  (exists n v,
     r = true /\ p' = setSimple n v true p /\
     checkBot badBotsList q sections = Ok (true, setSimple n v true q)).
Proof.
  unfold checkBot.
  destruct sections as [|s0 [|s1 rest]]; try apply checkSections_records.
  destruct (negb (String.eqb (name s0) "Mozilla"));
    [|apply checkSections_records].
  destruct (isKnownBadBot badBotsList (name s0));
    [intros [= <- <-]; right; eauto|].
  destruct (getFromSite (comment s0)) as [site|]; cbn [bind]; [|discriminate].
  destruct (negb (String.eqb site "")); intros [= <- <-];
    [right; eauto | left; auto].
Qed.

(** [checkBot] decides by the sections and the identifiers, not by the
    record: on any other record it returns the same answer and, on true,
    leaves the same browser; and run again on the record it produced, it
    returns the same answer and the same record. *)
Theorem X_checkBot_decision (p : UserAgent) (sections : list section)
  (r : bool) (p' : UserAgent) :
  checkBot badBotsList p sections = Ok (r, p') ->
  (forall q, exists q',
     checkBot badBotsList q sections = Ok (r, q') /\
     (r = true -> browser q' = browser p')) /\
  checkBot badBotsList p' sections = Ok (r, p').
Proof.
  intros H. split.
  - intros q.
    destruct (checkBot_records p q _ _ _ H)
      as [(-> & -> & Hq) | (n & v & -> & -> & Hq)].
    + exists q. split; [exact Hq | discriminate].
    + eexists. split; [exact Hq | reflexivity].
  - destruct (checkBot_records p p' _ _ _ H)
      as [(-> & E & Hq) | (n & v & -> & E & Hq)].
    + exact Hq.
    + rewrite Hq, E. reflexivity.
Qed.

(** Whatever [checkBot] decides, it leaves [ua], [mozilla], [platform] and
    [undecided] as they were, and it never takes the bot flag back: the flag
    afterwards is set when [checkBot] returned true or when it was set
    before. *)
Theorem X_checkBot_frame (p : UserAgent) (sections : list section)
  (r : bool) (p' : UserAgent) :
  checkBot badBotsList p sections = Ok (r, p') ->
  ua p' = ua p /\ mozilla p' = mozilla p /\ platform p' = platform p /\
  undecided p' = undecided p /\ bot p' = (r || bot p).
Proof.
  intros H.
  destruct (checkBot_records p p _ _ _ H)
    as [(-> & -> & _) | (n & v & -> & -> & _)]; cbn; repeat split.
Qed.

(** [getFromSite] never indexes out of range.  A non-empty result for one or
    two fields is a piece of the first field that has the shape of the
    pattern; a non-empty result for three or more fields is the trimmed
    field before the one that was searched. *)
Theorem X_getFromSite_result (comment : list string) :
  exists r,
    getFromSite comment = Ok r /\
    (r <> "" -> length comment < 3 ->
     exists field,
       nth_error comment 0 = Some field /\ substringOf r field /\
       regexp.lang botFromSiteRegexp r) /\
    (r <> "" -> 3 <= length comment ->
     exists prev,
       nth_error comment (siteIndex (length comment) - 1) = Some prev /\
       r = strings.TrimSpace prev).
Proof.
  destruct comment as [|c0 rest] eqn:Ec.
  - exists "". repeat split; congruence.
  - rewrite <- Ec.
    assert (Hne : comment <> []) by (rewrite Ec; discriminate).
    destruct (getFromSite_fields comment Hne) as (field & prev & Hf & Hp & Hg).
    cbv zeta in Hf, Hp, Hg. eexists. split; [exact Hg|].
    destruct (regexp.find botFromSiteRegexp field) as [[i m]|] eqn:E;
      [|split; congruence].
    apply find_sound in E as (_ & Hsub & Hlang). split.
    + intros _ Hlen.
      assert (Hidx : siteIndex (length comment) = 0).
      { unfold siteIndex.
        destruct (Nat.ltb_spec (length comment) 3); [reflexivity | lia]. }
      rewrite Hidx in *. exists field. cbn [Nat.eqb].
      split; [exact Hf | split; [|exact Hlang]].
      now exists (take i field), (drop (i + len m) field).
    + intros _ Hlen.
      assert (Hidx : (siteIndex (length comment) =? 0) = false).
      { unfold siteIndex.
        destruct (Nat.ltb_spec (length comment) 3); [lia|].
        now destruct (length comment =? 4). }
      rewrite Hidx. now exists prev.
Qed.


End MatchFacts.

(** ** Concrete runs of the further properties *)

Lemma X_setSimple_twice_witness :
  setSimple "Firefox" "100" false (setSimple "GPTBot" "1.0" true sampleRecord) =
  setSimple "Firefox" "100" false sampleRecord.
Proof.
  exact (proj1 (X_setSimple_twice "GPTBot" "1.0" "Firefox" "100" true false
                  sampleRecord) (or_introl eq_refl)).
Defined.

Lemma X_isKnownBadBot_substring_witness :
  isKnownBadBot (U := AsciiRuntime) ["gptbot"] "Mozilla GPTBot/1.0" = true.
Proof.
  apply (@X_isKnownBadBot_substring AsciiRuntime ["gptbot"]).
  exists "gptbot". split; [left; reflexivity|].
  exists "mozilla ", "/1.0". reflexivity.
Defined.

Lemma X_isKnownBadBot_order_witness :
  (forall b, In b ["curl"; "gptbot"] <-> In b ["gptbot"; "curl"; "curl"]) /\
  isKnownBadBot (U := AsciiRuntime) ["curl"; "gptbot"] "GPTBot/1.0" =
  isKnownBadBot (U := AsciiRuntime) ["gptbot"; "curl"; "curl"] "GPTBot/1.0".
Proof.
  assert (H : forall b, In b ["curl"; "gptbot"] <->
                        In b ["gptbot"; "curl"; "curl"])
    by (intros b; simpl; tauto).
  split; [exact H|].
  exact (@X_isKnownBadBot_order AsciiRuntime _ _ "GPTBot/1.0" H).
Defined.

Lemma X_scan_and_containment_witness :
  isKnownBadBot (U := AsciiRuntime) ["gptbot"] "GPTBot/1.1" = true /\
  exists n v,
    matchField (U := AsciiRuntime) ["gptbot"] "GPTBot/1.1" = Ok (Some (n, v)).
Proof.
  assert (H1 : isKnownBadBot (U := AsciiRuntime) ["gptbot"] "GPTBot/1.1" = true)
    by reflexivity.
  assert (H2 : ~ In "" ["gptbot"]) by (simpl; intros [H | []]; discriminate).
  assert (H3 : strings.isASCII "GPTBot/1.1" = true) by reflexivity.
  assert (H4 : asciiList ["gptbot"]) by (constructor; [reflexivity | constructor]).
  split; [exact H1|].
  exact (proj2 (@X_scan_and_containment AsciiRuntime ["gptbot"] "GPTBot/1.1")
           H1 H2 H3 H4).
Defined.

Lemma X_match_name_version_witness :
  matchField (U := AsciiRuntime) ["curl"; "gptbot"] "GPTBot/1.1; extra"
    = Ok (Some ("GPTBot", "1.1")) /\
  exists b,
    In b ["curl"; "gptbot"] /\ b <> "" /\ len "GPTBot" = len b /\
    substringOf "GPTBot" "GPTBot/1.1; extra" /\
    regexp.allChars versionChar "1.1" = true.
Proof.
  assert (H : matchField (U := AsciiRuntime) ["curl"; "gptbot"]
                "GPTBot/1.1; extra" = Ok (Some ("GPTBot", "1.1")))
    by reflexivity.
  split; [exact H|].
  destruct (@X_match_name_version AsciiRuntime _ _ _ _ H)
    as (b & H1 & H2 & H3 & H4 & H5 & _).
  exists b. repeat split; assumption.
Defined.

Lemma X_checkBot_ascii_returns_witness :
  asciiList ["gptbot"] /\ asciiFields [gptSection] /\
  exists r p',
    checkBot (U := AsciiRuntime) ["gptbot"] sampleRecord [gptSection]
      = Ok (r, p').
Proof.
  assert (H1 : asciiList ["gptbot"]) by (constructor; [reflexivity | constructor]).
  assert (H2 : asciiFields [gptSection]).
  { constructor; [|constructor]. repeat (constructor; [reflexivity|]).
    constructor. }
  split; [exact H1 | split; [exact H2|]].
  exact (@X_checkBot_ascii_returns AsciiRuntime _ sampleRecord _ H1 H2).
Defined.

Lemma X_single_section_witness :
  name curlSection <> "Mozilla" /\
  exists site,
    getFromSite (U := AsciiRuntime) (comment curlSection) = Ok site /\
    checkBot (U := AsciiRuntime) ["gptbot"] sampleRecord [curlSection] =
      Ok (if isKnownBadBot (U := AsciiRuntime) ["gptbot"] (name curlSection)
             || negb (String.eqb site "")
          then (true, setSimple (name curlSection) (version curlSection) true
                        sampleRecord)
          else (false, sampleRecord)).
Proof.
  assert (H : name curlSection <> "Mozilla") by (simpl; discriminate).
  split; [exact H|].
  exact (@X_single_section AsciiRuntime ["gptbot"] sampleRecord curlSection H).
Defined.

Lemma X_empty_identifier_witness :
  In "" ["gptbot"; ""] /\
  isKnownBadBot (U := AsciiRuntime) ["gptbot"; ""] "Firefox" = true.
Proof.
  assert (H : In "" ["gptbot"; ""]) by (simpl; tauto).
  split; [exact H|].
  exact (proj1 (@X_empty_identifier AsciiRuntime _ H) "Firefox").
Defined.

Lemma X_site_reference_name_witness :
  generalPath [baiduSection] /\
  Matches botFromSiteRegexp "+http://www.baidu.com/search/spider.htm" /\
  exists scheme rest,
    (scheme = "http:" \/ scheme = "https:") /\
    substringOf (scheme +++ "//" +++ rest)
      "+http://www.baidu.com/search/spider.htm" /\
    checkBot (U := AsciiRuntime) [] sampleRecord [baiduSection] =
      Ok (true, setSimple scheme ("/" +++ rest) true sampleRecord).
Proof.
  assert (Hg : generalPath [baiduSection]).
  { right. exists baiduSection. split; reflexivity. }
  assert (Hm : Matches botFromSiteRegexp
                 "+http://www.baidu.com/search/spider.htm").
  { exists "+", "http://www.baidu.com/search/spider.htm", "".
    split; [reflexivity|].
    apply botFromSite_shape. exists "", "www.baidu.com/search/spider", "htm".
    repeat split; try discriminate. now left. }
  split; [exact Hg | split; [exact Hm|]].
  refine (@X_site_reference_name AsciiRuntime [] sampleRecord [baiduSection]
            [] [] baiduSection _ Hg _ _ _ _ _ Hm).
  - reflexivity.
  - constructor.
  - constructor; [reflexivity | constructor].
  - simpl. lia.
  - reflexivity.
Defined.

Lemma X_checkBot_decision_witness :
  checkBot (U := AsciiRuntime) ["gptbot"] sampleRecord [gptSection] =
    Ok (true, setSimple "GPTBot" "1.0" true sampleRecord) /\
  checkBot (U := AsciiRuntime) ["gptbot"]
    (setSimple "GPTBot" "1.0" true sampleRecord) [gptSection] =
    Ok (true, setSimple "GPTBot" "1.0" true sampleRecord).
Proof.
  assert (H : checkBot (U := AsciiRuntime) ["gptbot"] sampleRecord [gptSection]
              = Ok (true, setSimple "GPTBot" "1.0" true sampleRecord))
    by reflexivity.
  split; [exact H|].
  exact (proj2 (@X_checkBot_decision AsciiRuntime _ _ _ _ _ H)).
Defined.

Lemma X_checkBot_frame_witness :
  checkBot (U := AsciiRuntime) ["gptbot"] sampleRecord [gptSection] =
    Ok (true, setSimple "GPTBot" "1.0" true sampleRecord) /\
  mozilla (setSimple "GPTBot" "1.0" true sampleRecord) = mozilla sampleRecord /\
  bot (setSimple "GPTBot" "1.0" true sampleRecord) = true.
Proof.
  assert (H : checkBot (U := AsciiRuntime) ["gptbot"] sampleRecord [gptSection]
              = Ok (true, setSimple "GPTBot" "1.0" true sampleRecord))
    by reflexivity.
  split; [exact H|].
  destruct (@X_checkBot_frame AsciiRuntime _ _ _ _ _ H)
    as (_ & Hm & _ & _ & Hb).
  split; [exact Hm | exact Hb].
Defined.

Lemma X_getFromSite_result_witness :
  exists r,
    getFromSite (U := AsciiRuntime) googlebotComment = Ok r /\
    (r <> "" -> 3 <= length googlebotComment ->
     exists prev,
       nth_error googlebotComment (siteIndex (length googlebotComment) - 1)
         = Some prev /\
       r = strings.TrimSpace (U := AsciiRuntime) prev).
Proof.
  destruct (@X_getFromSite_result AsciiRuntime googlebotComment)
    as (r & Hr & _ & H3).
  exists r. split; [exact Hr | exact H3].
Defined.
